(** * github_stats: the cache, the resolver, the aggregator and the request
    handlers of [server.js], embedded as Rocq functions.

    Conventions of the embedding.
    - A JavaScript object used as a dictionary ([cache], a language-count
      mapping) is a [gmap] keyed by strings.  Keys are taken to be distinct
      from the member names of [Object.prototype].
    - Numbers are integers ([Z]); line counts stay far below 2^53, where
      JavaScript's [+] on numbers is exact.  The [linesOfCode] of an
      element of the line counter's answer is such a number; its
      [language] may be missing.
    - An [async] function is a computation in the monad [M]: it threads the
      process-wide state ([cache], [blacklist]), the cache file and the
      chronological trace of outbound effects, and either returns or throws.
      One request is run at a time.
    - The outside world (GitHub, CodeTabs, the file system's answer to a
      write) is an oracle [Env]; each answer may depend on the whole trace
      of effects so far. *)

From stdpp Require Import gmap strings list fin_maps.
From Stdlib Require Import ZArith.

Local Open Scope Z_scope.

(** ** Data handled by the server *)

(** One item of the GitHub listing, with the three fields the code reads. *)
Record Repo := {
  repo_name : string;
  repo_full_name : string;
  repo_pushed_at : string;
}.

(** [cache[repoName] = { latestCommit, languages }] *)
Record CacheEntry := {
  latestCommit : string;
  languages : gmap string Z;
}.

(** [blacklist = { repos, paths, languages }] *)
Record Blacklist := {
  blacklist_repos : list string;
  blacklist_paths : list string;
  blacklist_languages : list string;
}.

(** One record of the CodeTabs answer. *)
Record LanguageData := {
  language : string;
  linesOfCode : Z;
}.

(** One element of the array the CodeTabs call answers with.  Nothing in
    the server checks its shape: it may be [null], a record with both
    fields, or an object that has a [linesOfCode] and no [language]. *)
Inductive LocItem :=
| ItemNull
| ItemRecord (languageData : LanguageData)
| ItemNoLanguage (linesOfCode : Z).

(** [response.data] of the CodeTabs call: a value without [forEach], or an
    array of elements. *)
Inductive LocData :=
| LocNotArray
| LocArray (items : list LocItem).

Inductive js_error :=
| AxiosError (msg : string)
| TypeError (msg : string)
| Error (msg : string).

Definition message (e : js_error) : string :=
  match e with
  | AxiosError msg | TypeError msg | Error msg => msg
  end.

(** Outcome of a promise returned by [axios.get]. *)
Inductive axios_response (A : Type) :=
| Fulfilled (data : A)
| Rejected (msg : string).
Arguments Fulfilled {A} data.
Arguments Rejected {A} msg.

(** Outbound effects, in the order they happen. *)
Inductive event :=
| GetRateLimit
| GetRepositories (url : string)
| GetLoc (url : string)
| WriteFile (path : string) (data : gmap string CacheEntry)
| ConsoleError (label : string) (detail : string).

Record Env := {
  github_rate_limit : list event -> axios_response Z;
  github_repos : list event -> string -> axios_response (list Repo);
  codetabs_loc : list event -> string -> axios_response LocData;
  fs_writeFile : list event -> string -> gmap string CacheEntry -> option string;
  fs_leftover :
    list event -> string -> gmap string CacheEntry
    -> option (gmap string CacheEntry);
}.

(** The state a request runs in.  [cache_file] is what [cache.json] holds:
    a cache, or [None] when the file is missing or does not parse as one. *)
Record World := {
  cache : gmap string CacheEntry;
  blacklist : Blacklist;
  cache_file : option (gmap string CacheEntry);
  trace : list event;
}.

Definition set_cache (c : gmap string CacheEntry) (w : World) : World :=
  {| cache := c; blacklist := blacklist w;
     cache_file := cache_file w; trace := trace w |}.

Definition set_cache_file (c : gmap string CacheEntry) (w : World) : World :=
  {| cache := cache w; blacklist := blacklist w;
     cache_file := Some c; trace := trace w |}.

(** The cache file after a write that was rejected: [fs.promises.writeFile]
    rewrites the file in place, so the file holds whatever the failed write
    left, [None] when that no longer parses as a cache. *)
Definition leave_cache_file (left : option (gmap string CacheEntry))
    (w : World) : World :=
  {| cache := cache w; blacklist := blacklist w;
     cache_file := left; trace := trace w |}.

Definition emit (e : event) (w : World) : World :=
  {| cache := cache w; blacklist := blacklist w;
     cache_file := cache_file w; trace := trace w ++ [e] |}.

(** ** The monad of asynchronous computations *)

Inductive outcome (A : Type) :=
| Returns (a : A)
| Throws (e : js_error).
Arguments Returns {A} a.
Arguments Throws {A} e.

Definition M (A : Type) : Type := World -> outcome A * World.

#[export] Instance M_ret : MRet M := fun A a w => (Returns a, w).

#[export] Instance M_bind : MBind M := fun A B k m w =>
  match m w with
  | (Returns a, w') => k a w'
  | (Throws e, w') => (Throws e, w')
  end.

Definition throw {A} (e : js_error) : M A := fun w => (Throws e, w).

Definition try_catch {A} (body : M A) (handler : js_error -> M A) : M A :=
  fun w =>
    match body w with
    | (Returns a, w') => (Returns a, w')
    | (Throws e, w') => handler e w'
    end.

Definition get_world : M World := fun w => (Returns w, w).

Definition console_error (label detail : string) : M unit :=
  fun w => (Returns tt, emit (ConsoleError label detail) w).

Definition lift_outcome {A} (o : outcome A) : M A := fun w => (o, w).

Definition settle {A} (r : axios_response A) : outcome A :=
  match r with
  | Fulfilled data => Returns data
  | Rejected msg => Throws (AxiosError msg)
  end.

Definition CACHE_FILE : string := "cache.json".
Definition BLACKLIST_FILE : string := "blacklist.json".

(** [arr.includes(x)] on an array of strings. *)
Definition includes (arr : list string) (x : string) : bool :=
  bool_decide (x ∈ arr).

(** [arr.join(sep)] *)
Definition join (sep : string) (arr : list string) : string :=
  String.concat sep arr.

(** [v || 0] where [v] is a property read: [undefined] and [0] are falsy. *)
Definition or_zero (v : option Z) : Z :=
  match v with
  | Some n => if n =? 0 then 0 else n
  | None => 0
  end.

(** [!v] for a property read. *)
Definition falsy (v : option Z) : bool :=
  match v with
  | Some n => n =? 0
  | None => true
  end.

Section Server.

Variable env : Env.

(** [saveCacheToFile]: the write is awaited; a rejection is logged and
    swallowed.  What a rejected write leaves in the file is the file
    system's to say ([fs_leftover]). *)
Definition saveCacheToFile : M unit := fun w =>
  let w1 := emit (WriteFile CACHE_FILE (cache w)) w in
  match fs_writeFile env (trace w) CACHE_FILE (cache w) with
  | None => (Returns tt, set_cache_file (cache w) w1)
  | Some err =>
      console_error "Error saving cache file:" err
        (leave_cache_file (fs_leftover env (trace w) CACHE_FILE (cache w)) w1)
  end.

Definition axios_get_rate_limit : M Z := fun w =>
  (settle (github_rate_limit env (trace w)), emit GetRateLimit w).

Definition axios_get_repos (url : string) : M (list Repo) := fun w =>
  (settle (github_repos env (trace w) url), emit (GetRepositories url) w).

Definition axios_get_loc (url : string) : M LocData := fun w =>
  (settle (codetabs_loc env (trace w) url), emit (GetLoc url) w).

(** [getRateLimit] returns [rateLimit.rate.remaining]. *)
Definition getRateLimit : M Z :=
  try_catch axios_get_rate_limit
    (fun error =>
       _ ← console_error "Error fetching rate limit:" (message error);
       throw error).

Definition repos_url (username : string) : string :=
  "https://api.github.com/users/" +:+ username +:+ "/repos?per_page=100".

Definition getRepositories (username : string) : M (list Repo) :=
  try_catch (axios_get_repos (repos_url username))
    (fun error =>
       _ ← console_error "Error fetching repositories:" (message error);
       throw error).

Definition loc_url (repoName ignoredPaths : string) : string :=
  "https://api.codetabs.com/v1/loc?github=" +:+ repoName
    +:+ "&ignored=" +:+ ignoredPaths.

(** The body of the [forEach] callback of [fetchLanguageCountsForRepo]. *)
Definition count_language (bl : Blacklist) (languages : gmap string Z)
    (languageData : LanguageData) : gmap string Z :=
  let language := language languageData in
  let lines := linesOfCode languageData in
  if negb (includes (blacklist_languages bl) language)
  then <[language := or_zero (languages !! language) + lines]> languages
  else languages.

(** The callback on an element without a [language]: [language] is
    [undefined], which [includes] finds in no list of strings, and the
    count goes under the property key ["undefined"]. *)
Definition count_unnamed (languages : gmap string Z) (lines : Z)
    : gmap string Z :=
  <["undefined" := or_zero (languages !! "undefined") + lines]> languages.

(** [response.data.forEach(...)]: reading [.language] of a [null] element
    throws in the middle of the loop. *)
Fixpoint forEach_languageData (bl : Blacklist)
    (data : list LocItem) (languages : gmap string Z)
    : outcome (gmap string Z) :=
  match data with
  | [] => Returns languages
  | ItemNull :: _ =>
      Throws (TypeError "Cannot read properties of null (reading 'language')")
  | ItemRecord languageData :: rest =>
      forEach_languageData bl rest (count_language bl languages languageData)
  | ItemNoLanguage lines :: rest =>
      forEach_languageData bl rest (count_unnamed languages lines)
  end.

(** The mapping built from [response.data], starting from [{}]. *)
Definition build_languages (bl : Blacklist) (data : LocData)
    : outcome (gmap string Z) :=
  match data with
  | LocNotArray => Throws (TypeError "response.data.forEach is not a function")
  | LocArray records => forEach_languageData bl records ∅
  end.

(** [cache[repoName] = entry] *)
Definition update_cache (repoName : string) (entry : CacheEntry) : M unit :=
  fun w => (Returns tt, set_cache (<[repoName := entry]> (cache w)) w).

(** [fetchLanguageCountsForRepo(repo)]: the stored mapping when the entry is
    up to date; otherwise one call to the line counter, the new entry, and
    the awaited save.  Everything that can throw does so before the cache
    is assigned. *)
Definition fetchLanguageCountsForRepo (repo : Repo) : M (gmap string Z) :=
  let repoName := repo_full_name repo in
  let pushed_at := repo_pushed_at repo in
  w ← get_world;
  let refresh : M (gmap string Z) :=
    let ignoredPaths := join "," (blacklist_paths (blacklist w)) in
    let url := loc_url repoName ignoredPaths in
    data ← axios_get_loc url;
    languages ← lift_outcome (build_languages (blacklist w) data);
    _ ← update_cache repoName
          {| latestCommit := pushed_at; languages := languages |};
    _ ← saveCacheToFile;
    mret languages in
  match cache w !! repoName with
  | Some entry =>
      if String.eqb (latestCommit entry) pushed_at
      then mret (languages entry)
      else refresh
  | None => refresh
  end.

(** [Object.entries(o)]; the aggregate does not depend on the order in which
    the entries come (see [add_entries_any_order]). *)
Definition Object_entries (o : gmap string Z) : list (string * Z) :=
  map_to_list o.

(** The body of the inner [for] loop of [aggregateLanguageCounts]. *)
Definition add_entry (languageCounts : gmap string Z) (entry : string * Z)
    : gmap string Z :=
  let '(language, lines) := entry in
  let languageCounts :=
    if falsy (languageCounts !! language)
    then <[language := 0]> languageCounts
    else languageCounts in
  alter (fun total => total + lines) language languageCounts.

Definition add_entries (languageCounts repoLanguages : gmap string Z)
    : gmap string Z :=
  foldl add_entry languageCounts (Object_entries repoLanguages).

(** The outer [for] loop of [aggregateLanguageCounts], from the running
    total [languageCounts]. *)
Fixpoint aggregate_from (repos : list Repo) (languageCounts : gmap string Z)
    : M (gmap string Z) :=
  match repos with
  | [] => mret languageCounts
  | repo :: rest =>
      w ← get_world;
      if negb (includes (blacklist_repos (blacklist w)) (repo_name repo))
      then
        repoLanguages ← fetchLanguageCountsForRepo repo;
        aggregate_from rest (add_entries languageCounts repoLanguages)
      else aggregate_from rest languageCounts
  end.

Definition aggregateLanguageCounts (repos : list Repo) : M (gmap string Z) :=
  aggregate_from repos ∅.

(** [countLinesOfCode(username, repoName)]; [repoName] is [None] when the
    argument is not passed.  The empty string is falsy. *)
Definition countLinesOfCode (username : string) (repoName : option string)
    : M (gmap string Z) :=
  repos ← getRepositories username;
  match repoName with
  | Some wanted =>
      if negb (String.eqb wanted "")
      then
        match find (fun r => String.eqb (repo_name r) wanted) repos with
        | Some repo => fetchLanguageCountsForRepo repo
        | None => throw (Error ("Repository " +:+ wanted +:+ " not found"))
        end
      else aggregateLanguageCounts repos
  | None => aggregateLanguageCounts repos
  end.

(** ** The two routes *)

Inductive ResponseBody :=
| JsonCounts (totalLines : gmap string Z)
| JsonError (error : string).

Record Response := {
  status : Z;
  body : ResponseBody;
}.

Definition rate_limit_exceeded : Response :=
  {| status := 429; body := JsonError "Rate limit exceeded. Try again later." |}.

(** [app.get("/languages/:username", ...)] *)
Definition get_languages_username (username : string) : M Response :=
  try_catch
    (remaining ← getRateLimit;
     if remaining =? 0
     then mret rate_limit_exceeded
     else
       totalLines ← countLinesOfCode username None;
       mret {| status := 200; body := JsonCounts totalLines |})
    (fun error => mret {| status := 500; body := JsonError (message error) |}).

(** [app.get("/languages/:username/:repoName", ...)] *)
Definition get_languages_username_repoName (username repoName : string)
    : M Response :=
  try_catch
    (remaining ← getRateLimit;
     if remaining =? 0
     then mret rate_limit_exceeded
     else
       totalLines ← countLinesOfCode username (Some repoName);
       mret {| status := 200; body := JsonCounts totalLines |})
    (fun error => mret {| status := 500; body := JsonError (message error) |}).

End Server.

(** ** Startup: loading the two documents *)

#[local] Set Warnings "-register-all".

Inductive json :=
| JNull
| JBool (b : bool)
| JNumber (n : Z)
| JString (s : string)
| JArray (items : list json)
| JObject (members : list (string * json)).

(** Truthiness of a parsed value. *)
Definition truthy (v : json) : bool :=
  match v with
  | JNull => false
  | JBool b => b
  | JNumber n => negb (n =? 0)
  | JString s => negb (String.eqb s "")
  | JArray _ | JObject _ => true
  end.

Definition typeof (v : json) : string :=
  match v with
  | JBool _ => "boolean"
  | JNumber _ => "number"
  | JString _ => "string"
  | JNull | JArray _ | JObject _ => "object"
  end.

(** [v.key] for a parsed value other than [null]: [None] is [undefined]. *)
Definition member (v : json) (key : string) : option json :=
  match v with
  | JObject members => snd <$> find (fun kv => String.eqb (fst kv) key) members
  | _ => None
  end.

(** [Array.isArray(v)] for a property read. *)
Definition isArray (v : option json) : bool :=
  match v with
  | Some (JArray _) => true
  | _ => false
  end.

(** What [JSON.parse(fs.readFileSync(path))] does on a file that exists:
    it throws [err], or it yields [data]. *)
Inductive file_content :=
| Unparsable (err : string)
| Parses (data : json).

Record Disk := {
  files : gmap string file_content;
  console : list (string * string);
}.

Definition disk_log (label detail : string) (d : Disk) : Disk :=
  {| files := files d; console := console d ++ [(label, detail)] |}.

(** [fs.writeFileSync(path, JSON.stringify(v))] *)
Definition disk_write (path : string) (v : json) (d : Disk) : Disk :=
  {| files := <[path := Parses v]> (files d); console := console d |}.

Definition loadDataFromFile (filePath : string) (defaultValue : json)
    (d : Disk) : json * Disk :=
  match files d !! filePath with
  | Some (Parses data) =>
      if truthy data && String.eqb (typeof data) "object"
      then (data, d)
      else (defaultValue, d)
  | Some (Unparsable err) =>
      (defaultValue, disk_log ("Error reading " +:+ filePath +:+ ":") err d)
  | None => (defaultValue, disk_write filePath defaultValue d)
  end.

Definition default_cache : json := JObject [].

Definition default_blacklist : json :=
  JObject [("repos", JArray []); ("paths", JArray []); ("languages", JArray [])].

(** The two assignments at the top level of [server.js]. *)
Definition startup (d : Disk) : json * json * Disk :=
  let '(cache, d) := loadDataFromFile CACHE_FILE default_cache d in
  let '(blacklist, d) := loadDataFromFile BLACKLIST_FILE default_blacklist d in
  (cache, blacklist, d).

(** A blacklist document of the documented shape: an object whose [repos],
    [paths] and [languages] are arrays. *)
Definition blacklist_well_formed (v : json) : bool :=
  match v with
  | JObject _ =>
      isArray (member v "repos") && isArray (member v "paths")
        && isArray (member v "languages")
  | _ => false
  end.

(** The earlier top-level loader of the blacklist kept in the repository
    (the second listing of the server), which checks the array fields. *)
Module Legacy.

Definition default_blacklist : json :=
  JObject [("repos", JArray []); ("paths", JArray [])].

Definition load_blacklist (blacklist : json) (d : Disk) : json * Disk :=
  match files d !! BLACKLIST_FILE with
  | Some (Parses JNull) =>
      (blacklist,
       disk_log "Error reading blacklist file"
         "Cannot read properties of null (reading 'repos')" d)
  | Some (Parses data) =>
      if isArray (member data "repos") && isArray (member data "paths")
      then (data, d)
      else (blacklist,
            disk_log "Blacklist data is not in the correct format" "" d)
  | Some (Unparsable err) =>
      (blacklist, disk_log "Error reading blacklist file" err d)
  | None => (blacklist, d)
  end.

End Legacy.

(** ** Vocabulary of the statements *)

(** The cache has no entry for [repo], or one whose marker differs from the
    repository's current [pushed_at]. *)
Definition absent_or_stale (c : gmap string CacheEntry) (repo : Repo) : Prop :=
  match c !! repo_full_name repo with
  | None => True
  | Some entry => latestCommit entry ≠ repo_pushed_at repo
  end.

(** The URL of the line-counting call that [fetchLanguageCountsForRepo]
    issues for [repo] in the world [w]. *)
Definition loc_request (w : World) (repo : Repo) : string :=
  loc_url (repo_full_name repo) (join "," (blacklist_paths (blacklist w))).

Definition is_loc_call (e : event) : bool :=
  match e with
  | GetLoc _ => true
  | _ => false
  end.

(** Number of calls to the line-counting collaborator in a trace. *)
Definition loc_calls (t : list event) : nat :=
  length (filter (fun e => is_loc_call e = true) t).

Definition is_write (e : event) : bool :=
  match e with
  | WriteFile _ _ => true
  | _ => false
  end.

(** Number of writes of the cache file in a trace. *)
Definition cache_writes (t : list event) : nat :=
  length (filter (fun e => is_write e = true) t).



(** Following the words of the specification: the total of the line counts
    that the records report for [lang]. *)
Definition reported_lines (lang : string) (records : list LanguageData) : Z :=
  foldr Z.add 0 (linesOfCode <$> filter (fun r => language r = lang) records).

(** Following the words of the specification: the entry of the fresh mapping
    at [lang]: nothing for an excluded language or one no record names, the
    summed count otherwise. *)
Definition expected_count (excluded : list string)
    (records : list LanguageData) (lang : string) : option Z :=
  if decide (lang ∈ excluded) then None
  else if decide (lang ∈ language <$> records)
       then Some (reported_lines lang records)
       else None.

(** Pointwise sum of two language-count mappings. *)
Definition sum_counts (m1 m2 : gmap string Z) : gmap string Z :=
  union_with (fun a b => Some (a + b)) m1 m2.

(** ** Concrete scenarios, used to exercise the statements *)

Module Scenario.

Definition january : string := "2024-01-01T00:00Z".
Definition february : string := "2024-02-01T00:00Z".

Definition demo_app (pushed_at : string) : Repo :=
  {| repo_name := "app"; repo_full_name := "demo/app";
     repo_pushed_at := pushed_at |}.

Definition demo_lib : Repo :=
  {| repo_name := "lib"; repo_full_name := "demo/lib";
     repo_pushed_at := january |}.

Definition demo_secret : Repo :=
  {| repo_name := "secret"; repo_full_name := "demo/secret";
     repo_pushed_at := january |}.

Definition january_entry : CacheEntry :=
  {| latestCommit := january; languages := {[ "JS" := 100 ]} |}.

Definition lib_entry : CacheEntry :=
  {| latestCommit := january; languages := {[ "JS" := 7; "C" := 30 ]} |}.

Definition cached : gmap string CacheEntry :=
  {[ "demo/app" := january_entry; "demo/lib" := lib_entry ]}.

Definition rules : Blacklist :=
  {| blacklist_repos := ["secret"];
     blacklist_paths := ["vendor"; "dist"];
     blacklist_languages := ["Go"] |}.

Definition world0 : World :=
  {| cache := cached; blacklist := rules;
     cache_file := Some cached; trace := [] |}.

Definition records : list LanguageData :=
  [ {| language := "JS"; linesOfCode := 150 |};
    {| language := "Go"; linesOfCode := 50 |};
    {| language := "JS"; linesOfCode := 5 |};
    {| language := "CSS"; linesOfCode := 20 |} ].

Definition listing : list Repo := [demo_secret; demo_app february; demo_lib].

(** Every collaborator answers; the write succeeds. *)
Definition env_ok : Env :=
  {| github_rate_limit := fun _ => Fulfilled 4999;
     github_repos := fun _ _ => Fulfilled listing;
     codetabs_loc := fun _ _ => Fulfilled (LocArray (ItemRecord <$> records));
     fs_writeFile := fun _ _ _ => None;
     fs_leftover := fun _ _ _ => None |}.

(** As [env_ok], but the write of the cache file is rejected and leaves a
    file that is cut off. *)
Definition env_disk_full : Env :=
  {| github_rate_limit := fun _ => Fulfilled 4999;
     github_repos := fun _ _ => Fulfilled listing;
     codetabs_loc := fun _ _ => Fulfilled (LocArray (ItemRecord <$> records));
     fs_writeFile := fun _ _ _ => Some "ENOSPC: no space left on device";
     fs_leftover := fun _ _ _ => None |}.

(** The line counter answers with an array that holds a [null]. *)
Definition env_loc_broken : Env :=
  {| github_rate_limit := fun _ => Fulfilled 4999;
     github_repos := fun _ _ => Fulfilled listing;
     codetabs_loc := fun _ _ =>
       Fulfilled (LocArray [ItemRecord {| language := "JS"; linesOfCode := 150 |};
                            ItemNull]);
     fs_writeFile := fun _ _ _ => None;
     fs_leftover := fun _ _ _ => None |}.

(** The budget is exhausted. *)
Definition env_exhausted : Env :=
  {| github_rate_limit := fun _ => Fulfilled 0;
     github_repos := fun _ _ => Fulfilled listing;
     codetabs_loc := fun _ _ => Fulfilled (LocArray (ItemRecord <$> records));
     fs_writeFile := fun _ _ _ => None;
     fs_leftover := fun _ _ _ => None |}.

(** The blacklist document is the object [{}]. *)
Definition disk_no_fields : Disk :=
  {| files := {[ CACHE_FILE := Parses (JObject []);
                 BLACKLIST_FILE := Parses (JObject []) ]};
     console := [] |}.

(** The blacklist document is the number [42]. *)
Definition disk_number : Disk :=
  {| files := {[ CACHE_FILE := Parses (JObject []);
                 BLACKLIST_FILE := Parses (JNumber 42) ]};
     console := [] |}.

End Scenario.

(** ** The earlier server

    The second listing of the server kept in the repository has one route
    and one function, [countLinesOfCode(username)], that lists, resolves
    and adds in a single loop; it knows no excluded languages.  Its
    [saveCacheToFile], [getRateLimit] and [getRepositories] are those of
    [server.js]. *)
Module LegacyServer.

(** The top-level load of the cache: whatever parses is taken, and a parse
    error is not caught. *)
Definition load_cache (cache : json) (d : Disk) : outcome json * Disk :=
  match files d !! CACHE_FILE with
  | Some (Parses data) => (Returns data, d)
  | Some (Unparsable err) => (Throws (Error err), d)
  | None => (Returns cache, disk_write CACHE_FILE cache d)
  end.

Section Server.

Variable env : Env.

(** The body of the [forEach] callback: the record is added to the
    repository's mapping and to the running total at once. *)
Definition count_both (acc : gmap string Z * gmap string Z)
    (languageData : LanguageData) : gmap string Z * gmap string Z :=
  let '(languages, languageCounts) := acc in
  let language := language languageData in
  let lines := linesOfCode languageData in
  (<[language := or_zero (languages !! language) + lines]> languages,
   add_entry languageCounts (language, lines)).

Fixpoint forEach_both (data : list LocItem)
    (acc : gmap string Z * gmap string Z)
    : outcome (gmap string Z * gmap string Z) :=
  match data with
  | [] => Returns acc
  | ItemNull :: _ =>
      Throws (TypeError "Cannot read properties of null (reading 'language')")
  | ItemRecord languageData :: rest =>
      forEach_both rest (count_both acc languageData)
  | ItemNoLanguage lines :: rest =>
      forEach_both rest
        (count_unnamed acc.1 lines, add_entry acc.2 ("undefined", lines))
  end.

Definition walk (data : LocData) (languageCounts : gmap string Z)
    : outcome (gmap string Z * gmap string Z) :=
  match data with
  | LocNotArray => Throws (TypeError "response.data.forEach is not a function")
  | LocArray records => forEach_both records (∅, languageCounts)
  end.

(** The [for] loop of [countLinesOfCode], from the running total. *)
Fixpoint count_from (repos : list Repo) (languageCounts : gmap string Z)
    : M (gmap string Z) :=
  match repos with
  | [] => mret languageCounts
  | repo :: rest =>
      w ← get_world;
      if includes (blacklist_repos (blacklist w)) (repo_name repo)
      then count_from rest languageCounts
      else
        let repoName := repo_full_name repo in
        let pushed_at := repo_pushed_at repo in
        let refresh : M (gmap string Z) :=
          let ignoredPaths := join "," (blacklist_paths (blacklist w)) in
          let url := loc_url repoName ignoredPaths in
          data ← axios_get_loc env url;
          both ← lift_outcome (walk data languageCounts);
          _ ← update_cache repoName
                {| latestCommit := pushed_at; languages := both.1 |};
          _ ← saveCacheToFile env;
          count_from rest both.2 in
        match cache w !! repoName with
        | Some entry =>
            if String.eqb (latestCommit entry) pushed_at
            then count_from rest
                   (foldl add_entry languageCounts
                      (Object_entries (languages entry)))
            else refresh
        | None => refresh
        end
  end.

Definition countLinesOfCode (username : string) : M (gmap string Z) :=
  try_catch
    (repos ← getRepositories env username;
     count_from repos ∅)
    (fun error =>
       _ ← console_error "Error counting lines of code:" (message error);
       throw error).

(** [app.get("/languages/:username", ...)] *)
Definition get_languages_username (username : string) : M Response :=
  try_catch
    (remaining ← getRateLimit env;
     if remaining =? 0
     then mret rate_limit_exceeded
     else
       totalLines ← countLinesOfCode username;
       mret {| status := 200; body := JsonCounts totalLines |})
    (fun error => mret {| status := 500; body := JsonError (message error) |}).

End Server.

End LegacyServer.

(** ** Vocabulary of the further properties *)

(** The condition of the [if] at the head of [fetchLanguageCountsForRepo]:
    the cache holds an entry for [repo] at its current marker. *)
Definition up_to_date (c : gmap string CacheEntry) (repo : Repo) : Prop :=
  exists entry,
    c !! repo_full_name repo = Some entry
    /\ latestCommit entry = repo_pushed_at repo.

(** The mapping the cache holds for [repo] (empty when it holds none). *)
Definition stored_counts (c : gmap string CacheEntry) (repo : Repo)
    : gmap string Z :=
  match c !! repo_full_name repo with
  | Some entry => languages entry
  | None => ∅
  end.

(** The repositories of a listing that the aggregator visits. *)
Definition visited (bl : Blacklist) (repos : list Repo) : list Repo :=
  filter (fun r => repo_name r ∉ blacklist_repos bl) repos.

(** Total number of lines of a mapping. *)
Definition total_lines (m : gmap string Z) : Z :=
  map_fold (fun _ n acc => n + acc) 0 m.

(** Total number of lines that the records report outside the excluded
    languages. *)
Definition counted_lines (excluded : list string)
    (records : list LanguageData) : Z :=
  foldr Z.add 0
    (linesOfCode <$> filter (fun r => language r ∉ excluded) records).

(** What every operation of the server keeps from the world [w] it starts
    in to the world [w'] it ends in: the exclusion rules, every key of the
    cache, and the past of the trace. *)
Definition evolves (w w' : World) : Prop :=
  blacklist w' = blacklist w
  /\ (forall k, is_Some (cache w !! k) -> is_Some (cache w' !! k))
  /\ trace w `prefix_of` trace w'.

(** No count of the mapping is negative. *)
Definition counts_nonneg (m : gmap string Z) : Prop :=
  forall lang n, m !! lang = Some n -> 0 <= n.

(** No entry of the cache holds a negative count. *)
Definition cache_nonneg (c : gmap string CacheEntry) : Prop :=
  forall k entry, c !! k = Some entry -> counts_nonneg (languages entry).

(** The [linesOfCode] of an element ([null] has none). *)
Definition item_lines (item : LocItem) : Z :=
  match item with
  | ItemNull => 0
  | ItemRecord languageData => linesOfCode languageData
  | ItemNoLanguage lines => lines
  end.

(** The elements as the callback counts them when no language is
    excluded: an element without a [language] counts as a record of the
    language ["undefined"]. *)
Definition counted_records (items : list LocItem) : list LanguageData :=
  items ≫= fun item =>
    match item with
    | ItemNull => []
    | ItemRecord languageData => [languageData]
    | ItemNoLanguage lines =>
        [{| language := "undefined"; linesOfCode := lines |}]
    end.

(** The line counter never reports a negative count. *)
Definition reports_nonneg (env : Env) : Prop :=
  forall t url data item,
    codetabs_loc env t url = Fulfilled (LocArray data) ->
    item ∈ data -> 0 <= item_lines item.

(** Every write of the cache file succeeds. *)
Definition writes_succeed (env : Env) : Prop :=
  forall t path c, fs_writeFile env t path c = None.

(** Further scenarios. *)
Module Cases.

(** Neither document exists yet. *)
Definition disk_fresh : Disk := {| files := ∅; console := [] |}.

(** The cache document cannot be parsed; the blacklist is well formed. *)
Definition disk_garbled_cache : Disk :=
  {| files := {[ CACHE_FILE := Unparsable "Unexpected end of JSON input";
                 BLACKLIST_FILE :=
                   Parses (JObject [("repos", JArray [JString "secret"]);
                                    ("paths", JArray []);
                                    ("languages", JArray [])]) ]};
     console := [] |}.

(** The budget check is rejected. *)
Definition env_no_budget_answer : Env :=
  {| github_rate_limit := fun _ => Rejected "Request failed with status code 401";
     github_repos := fun _ _ => Fulfilled Scenario.listing;
     codetabs_loc := fun _ _ =>
       Fulfilled (LocArray (ItemRecord <$> Scenario.records));
     fs_writeFile := fun _ _ _ => None;
     fs_leftover := fun _ _ _ => None |}.

(** The listing is rejected. *)
Definition env_no_listing : Env :=
  {| github_rate_limit := fun _ => Fulfilled 12;
     github_repos := fun _ _ => Rejected "Request failed with status code 404";
     codetabs_loc := fun _ _ =>
       Fulfilled (LocArray (ItemRecord <$> Scenario.records));
     fs_writeFile := fun _ _ _ => None;
     fs_leftover := fun _ _ _ => None |}.

(** The listing holds the excluded repository and two cached ones. *)
Definition cached_listing : list Repo :=
  [Scenario.demo_secret; Scenario.demo_app Scenario.january; Scenario.demo_lib].

Definition env_cached_listing : Env :=
  {| github_rate_limit := fun _ => Fulfilled 12;
     github_repos := fun _ _ => Fulfilled cached_listing;
     codetabs_loc := fun _ _ => Rejected "not reached";
     fs_writeFile := fun _ _ _ => None;
     fs_leftover := fun _ _ _ => None |}.



(** No language is excluded. *)
Definition rules_no_language : Blacklist :=
  {| blacklist_repos := ["secret"];
     blacklist_paths := ["vendor"; "dist"];
     blacklist_languages := [] |}.

Definition world_no_language : World :=
  {| cache := Scenario.cached; blacklist := rules_no_language;
     cache_file := Some Scenario.cached; trace := [] |}.

End Cases.

(** ** Properties of the resolver *)

Ltac run :=
  unfold mbind, M_bind, mret, M_ret, get_world, throw, try_catch,
    lift_outcome, update_cache, console_error; simpl.

Lemma or_zero_default (v : option Z) : or_zero v = default 0 v.
Proof.
  destruct v as [n|]; simpl; [|done].
  destruct (Z.eqb_spec n 0); congruence.
Qed.

Lemma loc_calls_app (t1 t2 : list event) :
  loc_calls (t1 ++ t2) = (loc_calls t1 + loc_calls t2)%nat.
Proof. unfold loc_calls. by rewrite filter_app, length_app. Qed.

Lemma cache_writes_app (t1 t2 : list event) :
  cache_writes (t1 ++ t2) = (cache_writes t1 + cache_writes t2)%nat.
Proof. unfold cache_writes. by rewrite filter_app, length_app. Qed.

Section ResolverFacts.

Variable env : Env.

(** A valid entry is returned as it is, and the world is left as it was. *)
Lemma fetch_hit (repo : Repo) (w : World) (entry : CacheEntry) :
  cache w !! repo_full_name repo = Some entry ->
  latestCommit entry = repo_pushed_at repo ->
  fetchLanguageCountsForRepo env repo w = (Returns (languages entry), w).
Proof.
  intros Hlook Heq. unfold fetchLanguageCountsForRepo. run.
  rewrite Hlook. apply String.eqb_eq in Heq. by rewrite Heq.
Qed.

(** On a miss the resolver is its refreshing branch. *)
Lemma fetch_miss (repo : Repo) (w : World) :
  absent_or_stale (cache w) repo ->
  fetchLanguageCountsForRepo env repo w =
    (data ← axios_get_loc env (loc_request w repo);
     languages ← lift_outcome (build_languages (blacklist w) data);
     _ ← update_cache (repo_full_name repo)
           {| latestCommit := repo_pushed_at repo; languages := languages |};
     _ ← saveCacheToFile env;
     mret languages) w.
Proof.
  unfold absent_or_stale, fetchLanguageCountsForRepo. intros Hstale.
  unfold mbind at 1, M_bind at 1, get_world at 1. cbv beta iota.
  destruct (cache w !! repo_full_name repo) as [entry|] eqn:Hlook; [|done].
  destruct (String.eqb_spec (latestCommit entry) (repo_pushed_at repo)); done.
Qed.


(** Walking an array of records is a left fold of the callback. *)
Lemma forEach_records (bl : Blacklist) (records : list LanguageData) :
  forall languages,
    forEach_languageData bl (ItemRecord <$> records) languages =
      Returns (foldl (count_language bl) languages records).
Proof.
  induction records as [|r records IH]; intros languages; simpl; [done|].
  apply IH.
Qed.

Lemma reported_lines_cons (lang : string) (r : LanguageData)
    (records : list LanguageData) :
  reported_lines lang (r :: records) =
    (if decide (language r = lang) then linesOfCode r else 0)
      + reported_lines lang records.
Proof.
  unfold reported_lines. rewrite filter_cons.
  destruct (decide (language r = lang)); [rewrite fmap_cons|]; simpl; lia.
Qed.

Lemma reported_lines_unnamed (lang : string) (records : list LanguageData) :
  lang ∉ language <$> records -> reported_lines lang records = 0.
Proof.
  induction records as [|r records IH]; intros Hnot; [done|].
  rewrite reported_lines_cons. rewrite fmap_cons in Hnot.
  apply not_elem_of_cons in Hnot as [Hne Hnot].
  rewrite decide_False by congruence. rewrite IH by done. lia.
Qed.

(** The callback, with its conditional read on the exclusion list. *)
Lemma count_language_lookup (bl : Blacklist) (languages : gmap string Z)
    (r : LanguageData) (lang : string) :
  count_language bl languages r !! lang =
    if decide (language r = lang /\ lang ∉ blacklist_languages bl)
    then Some (default 0 (languages !! lang) + linesOfCode r)
    else languages !! lang.
Proof.
  unfold count_language, includes. cbv zeta. rewrite or_zero_default.
  destruct (bool_decide_reflect (language r ∈ blacklist_languages bl)) as [Hin|Hnot];
    simpl.
  - rewrite decide_False; [done|]. intros [<- ?]. done.
  - destruct (decide (language r = lang)) as [<-|Hne].
    + rewrite lookup_insert_eq. by rewrite decide_True.
    + rewrite lookup_insert_ne by done. rewrite decide_False; [done|].
      intros [? _]. done.
Qed.

(** What the fold of the callback leaves at each language. *)
Lemma count_fold_lookup (bl : Blacklist) (records : list LanguageData)
    (lang : string) :
  forall languages : gmap string Z,
    foldl (count_language bl) languages records !! lang =
      if decide (lang ∈ blacklist_languages bl) then languages !! lang
      else if decide (lang ∈ language <$> records)
           then Some (default 0 (languages !! lang) + reported_lines lang records)
           else languages !! lang.
Proof.
  induction records as [|r records IH]; intros languages.
  - simpl. by repeat case_decide.
  - simpl foldl. rewrite IH. clear IH.
    rewrite count_language_lookup, reported_lines_cons, fmap_cons.
    destruct (decide (lang ∈ blacklist_languages bl)) as [Hex|Hex].
    { rewrite decide_False; [done|]. intros [_ ?]. done. }
    destruct (decide (language r = lang)) as [<-|Hne].
    + rewrite (decide_True (P := _ /\ _)) by done.
      rewrite (decide_True (P := language r ∈ language r :: _))
        by (apply elem_of_cons; by left).
      simpl. destruct (decide (language r ∈ language <$> records)) as [Hin|Hnot].
      * f_equal; lia.
      * rewrite reported_lines_unnamed by done. f_equal; lia.
    + rewrite (decide_False (P := _ /\ _)) by (intros [? _]; done).
      destruct (decide (lang ∈ language <$> records)) as [Hin|Hnot].
      * rewrite decide_True by (apply elem_of_cons; by right).
        f_equal; lia.
      * rewrite decide_False; [done|].
        intros [?|?]%elem_of_cons; congruence.
Qed.

(** The fresh mapping is the one the specification describes. *)
Lemma fresh_languages_expected (bl : Blacklist) (records : list LanguageData)
    (lang : string) :
  foldl (count_language bl) ∅ records !! lang =
    expected_count (blacklist_languages bl) records lang.
Proof.
  rewrite count_fold_lookup. unfold expected_count.
  rewrite lookup_empty. simpl.
  repeat destruct (decide _); try done; f_equal; lia.
Qed.

(** [saveCacheToFile] never throws and never touches the in-memory state. *)
Lemma saveCacheToFile_returns (w : World) :
  exists w', saveCacheToFile env w = (Returns tt, w')
    /\ cache w' = cache w /\ blacklist w' = blacklist w.
Proof.
  unfold saveCacheToFile. destruct (fs_writeFile _ _ _ _); run; eauto.
Qed.


(** A miss whose call answers with records stores the fresh mapping and
    then saves the cache. *)
Lemma fetch_miss_records (repo : Repo) (w : World)
    (records : list LanguageData) :
  absent_or_stale (cache w) repo ->
  codetabs_loc env (trace w) (loc_request w repo)
    = Fulfilled (LocArray (ItemRecord <$> records)) ->
  fetchLanguageCountsForRepo env repo w =
    (Returns (foldl (count_language (blacklist w)) ∅ records),
     (saveCacheToFile env
        (set_cache
           (<[repo_full_name repo :=
                {| latestCommit := repo_pushed_at repo;
                   languages := foldl (count_language (blacklist w)) ∅ records |}]>
              (cache w))
           (emit (GetLoc (loc_request w repo)) w))).2).
Proof.
  intros Hstale Hans. rewrite fetch_miss by done.
  run. unfold axios_get_loc. rewrite Hans. simpl.
  rewrite forEach_records.
  match goal with |- context [saveCacheToFile env ?w1] =>
    destruct (saveCacheToFile_returns w1) as (w' & -> & _) end.
  done.
Qed.

(** Everything a miss can do: one call to the line counter, then either a
    throw with the cache and its file untouched, or the new entry stored
    under the repository's full name. *)
Lemma fetch_miss_outcome (repo : Repo) (w : World) :
  absent_or_stale (cache w) repo ->
  exists (o : outcome (gmap string Z)) (w' : World) (after : list event),
    fetchLanguageCountsForRepo env repo w = (o, w')
    /\ trace w' = trace w ++ GetLoc (loc_request w repo) :: after
    /\ loc_calls after = 0%nat
    /\ blacklist w' = blacklist w
    /\ match o with
       | Returns fresh =>
           cache w' =
             <[repo_full_name repo :=
                 {| latestCommit := repo_pushed_at repo; languages := fresh |}]>
               (cache w)
       | Throws e =>
           cache w' = cache w /\ cache_file w' = cache_file w /\ after = []
           /\ forall msg,
                codetabs_loc env (trace w) (loc_request w repo) = Rejected msg ->
                e = AxiosError msg
       end.
Proof.
  intros Hstale. rewrite fetch_miss by done.
  run. unfold axios_get_loc.
  destruct (codetabs_loc _ _ _) as [data|msg]; simpl.
  - destruct (build_languages (blacklist w) data) as [fresh|e]; simpl.
    + unfold saveCacheToFile. simpl.
      destruct (fs_writeFile _ _ _ _) as [err|]; simpl;
        eexists _, _, _; (split; [reflexivity|]); simpl;
        rewrite <- ?app_assoc; simpl; by repeat split.
    + eexists _, _, []. split; [reflexivity|]. simpl. by repeat split.
  - eexists _, _, []. split; [reflexivity|]. simpl.
    repeat split; try done. congruence.
Qed.

End ResolverFacts.

(** C1. A repository whose cache entry carries the repository's current
    [pushed_at] is resolved to exactly the stored mapping, and the world is
    returned as it was received: the trace gains no call to the line counter
    and no write, and the cache and its file are the same. *)
Theorem cache_hit_returns_stored (env : Env) (repo : Repo) (w : World)
    (entry : CacheEntry) :
  cache w !! repo_full_name repo = Some entry ->
  latestCommit entry = repo_pushed_at repo ->
  fetchLanguageCountsForRepo env repo w = (Returns (languages entry), w).
Proof. apply fetch_hit. Qed.

Lemma cache_hit_returns_stored_witness :
  cache Scenario.world0 !! "demo/app" = Some Scenario.january_entry
  /\ latestCommit Scenario.january_entry = Scenario.january
  /\ fetchLanguageCountsForRepo Scenario.env_ok
       (Scenario.demo_app Scenario.january) Scenario.world0
     = (Returns {[ "JS" := 100 ]}, Scenario.world0).
Proof.
  split; [reflexivity|]. split; [reflexivity|].
  apply (cache_hit_returns_stored Scenario.env_ok
           (Scenario.demo_app Scenario.january) Scenario.world0
           Scenario.january_entry); reflexivity.
Defined.

(** C2. A repository with no cache entry, or with a stale one, is resolved
    with exactly one call to the line counter; when the call answers with
    records, the mapping returned holds, for each language outside the
    exclusion list, the sum of the counts of the records that name it, and
    nothing for an excluded language; that same mapping, with the
    repository's current marker, replaces whatever the cache held under the
    repository's full name. *)
Theorem cache_miss_refreshes (env : Env) (repo : Repo) (w : World) :
  absent_or_stale (cache w) repo ->
  (exists o w' after,
     fetchLanguageCountsForRepo env repo w = (o, w')
     /\ trace w' = trace w ++ GetLoc (loc_request w repo) :: after
     /\ loc_calls after = 0%nat)
  /\ forall records : list LanguageData,
       codetabs_loc env (trace w) (loc_request w repo)
         = Fulfilled (LocArray (ItemRecord <$> records)) ->
       exists fresh w',
         fetchLanguageCountsForRepo env repo w = (Returns fresh, w')
         /\ (forall lang,
               fresh !! lang =
                 expected_count (blacklist_languages (blacklist w)) records lang)
         /\ cache w' =
              <[repo_full_name repo :=
                  {| latestCommit := repo_pushed_at repo; languages := fresh |}]>
                (cache w).
Proof.
  intros Hstale. split.
  - destruct (fetch_miss_outcome env repo w Hstale)
      as (o & w' & after & Hrun & Htrace & Hcalls & _).
    by exists o, w', after.
  - intros records Hans.
    destruct (fetch_miss_outcome env repo w Hstale)
      as (o & w' & after & Hrun & _ & _ & _ & Hcache).
    rewrite (fetch_miss_records env repo w records Hstale Hans) in Hrun.
    injection Hrun as Ho Hw. subst o.
    eexists _, w'. split.
    { rewrite (fetch_miss_records env repo w records Hstale Hans).
      by rewrite Hw. }
    split; [|exact Hcache].
    intros lang. apply fresh_languages_expected.
Qed.

Lemma cache_miss_refreshes_witness :
  absent_or_stale (cache Scenario.world0) (Scenario.demo_app Scenario.february)
  /\ exists fresh w',
       fetchLanguageCountsForRepo Scenario.env_ok
         (Scenario.demo_app Scenario.february) Scenario.world0
         = (Returns fresh, w')
       /\ fresh !! "JS" = Some 155
       /\ fresh !! "CSS" = Some 20
       /\ fresh !! "Go" = None
       /\ cache w' !! "demo/app"
          = Some {| latestCommit := Scenario.february; languages := fresh |}
       /\ loc_calls (trace w') = 1%nat.
Proof.
  assert (Hstale : absent_or_stale (cache Scenario.world0)
                     (Scenario.demo_app Scenario.february))
    by (vm_compute; discriminate).
  split; [exact Hstale|].
  destruct (cache_miss_refreshes Scenario.env_ok
              (Scenario.demo_app Scenario.february) Scenario.world0 Hstale)
    as [(o & w1 & after & Hrun1 & Htrace & Hcalls) Hrecords].
  destruct (Hrecords Scenario.records eq_refl)
    as (fresh & w' & Hrun & Hexpected & Hcache).
  exists fresh, w'. split; [exact Hrun|].
  rewrite !Hexpected, Hcache.
  repeat split; try (vm_compute; reflexivity).
  rewrite Hrun in Hrun1. injection Hrun1 as _ <-.
  rewrite Htrace.
  change (GetLoc ?u :: after) with ([GetLoc u] ++ after).
  rewrite !loc_calls_app, Hcalls. reflexivity.
Defined.




(** C8. A refresh stores the new entry and writes the whole cache to its
    file before the resolver returns.  When the write succeeds the file
    holds the whole in-memory cache; when it is rejected the rejection is
    logged and swallowed, and the file holds whatever the failed write
    left: the resolver still returns the fresh mapping, the entry stays in
    memory, and resolving the repository again at the same marker is served
    from it. *)
Theorem cache_update_persisted_or_logged (env : Env) (repo : Repo) (w : World)
    (records : list LanguageData) :
  absent_or_stale (cache w) repo ->
  codetabs_loc env (trace w) (loc_request w repo)
    = Fulfilled (LocArray (ItemRecord <$> records)) ->
  exists fresh w',
    fetchLanguageCountsForRepo env repo w = (Returns fresh, w')
    /\ cache w' !! repo_full_name repo
       = Some {| latestCommit := repo_pushed_at repo; languages := fresh |}
    /\ match fs_writeFile env (trace w ++ [GetLoc (loc_request w repo)])
               CACHE_FILE (cache w') with
       | None =>
           cache_file w' = Some (cache w')
           /\ last (trace w') = Some (WriteFile CACHE_FILE (cache w'))
       | Some err =>
           cache_file w' =
             fs_leftover env (trace w ++ [GetLoc (loc_request w repo)])
               CACHE_FILE (cache w')
           /\ last (trace w') = Some (ConsoleError "Error saving cache file:" err)
       end
    /\ fetchLanguageCountsForRepo env repo w' = (Returns fresh, w').
Proof.
  intros Hstale Hans.
  rewrite (fetch_miss_records env repo w records Hstale Hans).
  set (entry := {| latestCommit := repo_pushed_at repo;
                   languages := foldl (count_language (blacklist w)) ∅ records |}).
  unfold saveCacheToFile. simpl.
  destruct (fs_writeFile _ _ _ _) as [err|] eqn:Hwrite; simpl;
    eexists _, _; (split; [reflexivity|]); simpl;
    (split; [apply lookup_insert_eq|]); rewrite Hwrite;
    (split; [split; [reflexivity|apply last_snoc]|]);
    apply (fetch_hit env repo _ entry); simpl;
    solve [apply lookup_insert_eq | reflexivity].
Qed.

Lemma cache_update_persisted_or_logged_witness :
  absent_or_stale (cache Scenario.world0) (Scenario.demo_app Scenario.february)
  /\ exists fresh w',
       fetchLanguageCountsForRepo Scenario.env_disk_full
         (Scenario.demo_app Scenario.february) Scenario.world0
         = (Returns fresh, w')
       /\ cache w' !! "demo/app"
          = Some {| latestCommit := Scenario.february; languages := fresh |}
       /\ cache_file w' = None
       /\ last (trace w')
          = Some (ConsoleError "Error saving cache file:"
                    "ENOSPC: no space left on device").
Proof.
  assert (Hstale : absent_or_stale (cache Scenario.world0)
                     (Scenario.demo_app Scenario.february))
    by (vm_compute; discriminate).
  split; [exact Hstale|].
  destruct (cache_update_persisted_or_logged Scenario.env_disk_full
              (Scenario.demo_app Scenario.february) Scenario.world0
              Scenario.records Hstale eq_refl)
    as (fresh & w' & Hrun & Hentry & Hwrite & _).
  exists fresh, w'. simpl in Hwrite. destruct Hwrite as [Hfile Hlast].
  repeat split; assumption.
Defined.

(** C10. A resolution served from the cache leaves the cache as it was.  A
    resolution that refreshes and returns sets the entry under the
    repository's full name and leaves the entry under every other key as
    it was. *)
Theorem resolution_touches_one_key (env : Env) (repo : Repo) (w : World) :
  (forall entry,
     cache w !! repo_full_name repo = Some entry ->
     latestCommit entry = repo_pushed_at repo ->
     cache (fetchLanguageCountsForRepo env repo w).2 = cache w)
  /\ (absent_or_stale (cache w) repo ->
      forall fresh w',
        fetchLanguageCountsForRepo env repo w = (Returns fresh, w') ->
        cache w' !! repo_full_name repo
          = Some {| latestCommit := repo_pushed_at repo; languages := fresh |}
        /\ forall other,
             other <> repo_full_name repo ->
             cache w' !! other = cache w !! other).
Proof.
  split.
  - intros entry Hlook Heq. by rewrite (fetch_hit env repo w entry).
  - intros Hstale fresh w' Hrun.
    destruct (fetch_miss_outcome env repo w Hstale)
      as (o & w1 & after & Hrun1 & _ & _ & _ & Hcase).
    rewrite Hrun in Hrun1. injection Hrun1 as <- <-.
    rewrite Hcase. split; [apply lookup_insert_eq|].
    intros other Hne. by rewrite lookup_insert_ne.
Qed.

Lemma resolution_touches_one_key_witness :
  absent_or_stale (cache Scenario.world0) (Scenario.demo_app Scenario.february)
  /\ exists fresh w',
       fetchLanguageCountsForRepo Scenario.env_ok
         (Scenario.demo_app Scenario.february) Scenario.world0
         = (Returns fresh, w')
       /\ cache w' !! "demo/app"
          = Some {| latestCommit := Scenario.february; languages := fresh |}
       /\ cache w' !! "demo/lib" = Some Scenario.lib_entry
       /\ cache (fetchLanguageCountsForRepo Scenario.env_ok
                   Scenario.demo_lib Scenario.world0).2 = Scenario.cached.
Proof.
  assert (Hstale : absent_or_stale (cache Scenario.world0)
                     (Scenario.demo_app Scenario.february))
    by (vm_compute; discriminate).
  split; [exact Hstale|].
  destruct (resolution_touches_one_key Scenario.env_ok
              (Scenario.demo_app Scenario.february) Scenario.world0)
    as [_ Hmiss].
  destruct (resolution_touches_one_key Scenario.env_ok
              Scenario.demo_lib Scenario.world0) as [Hhit _].
  eexists _, _. split; [vm_compute; reflexivity|].
  destruct (Hmiss Hstale _ _ ltac:(vm_compute; reflexivity)) as [Hown Hother].
  split; [exact Hown|]. split.
  - rewrite Hother by discriminate. reflexivity.
  - apply (Hhit Scenario.lib_entry); reflexivity.
Defined.

(** ** Properties of the aggregator *)

Lemma add_entry_lookup (languageCounts : gmap string Z) (lang : string)
    (lines : Z) (k : string) :
  add_entry languageCounts (lang, lines) !! k =
    if decide (k = lang)
    then Some (default 0 (languageCounts !! lang) + lines)
    else languageCounts !! k.
Proof.
  unfold add_entry. destruct (decide (k = lang)) as [->|Hne].
  - rewrite lookup_alter_eq.
    destruct (languageCounts !! lang) as [n|] eqn:Hn; simpl.
    + destruct (Z.eqb_spec n 0) as [->|Hnz].
      * by rewrite lookup_insert_eq.
      * by rewrite Hn.
    + by rewrite lookup_insert_eq.
  - rewrite lookup_alter_ne by done.
    destruct (falsy _); [|done]. by rewrite lookup_insert_ne.
Qed.

(** Adding a list of entries with distinct keys, in whatever order. *)
Lemma add_entry_fold_lookup (entries : list (string * Z)) (k : string) :
  NoDup entries.*1 ->
  forall languageCounts : gmap string Z,
    foldl add_entry languageCounts entries !! k =
      match (list_to_map entries : gmap string Z) !! k with
      | Some lines => Some (default 0 (languageCounts !! k) + lines)
      | None => languageCounts !! k
      end.
Proof.
  induction entries as [|[lang lines] entries IH]; intros Hnodup languageCounts.
  - simpl. by rewrite lookup_empty.
  - rewrite fmap_cons in Hnodup. apply NoDup_cons in Hnodup as [Hfresh Hnodup].
    cbn [foldl]. rewrite IH by done. rewrite list_to_map_cons.
    rewrite add_entry_lookup.
    destruct (decide (k = lang)) as [->|Hne].
    + rewrite lookup_insert_eq.
      by rewrite (not_elem_of_list_to_map_1 _ _ Hfresh).
    + by rewrite lookup_insert_ne.
Qed.

(** The inner loop adds the repository's mapping pointwise, and the order of
    the entries plays no part. *)
Lemma add_entries_any_order (languageCounts repoLanguages : gmap string Z)
    (entries : list (string * Z)) :
  entries ≡ₚ map_to_list repoLanguages ->
  foldl add_entry languageCounts entries = sum_counts languageCounts repoLanguages.
Proof.
  intros Hperm. apply map_eq. intros k.
  assert (Hnodup : NoDup entries.*1).
  { rewrite Hperm. apply NoDup_fst_map_to_list. }
  rewrite add_entry_fold_lookup by done.
  assert (Hmap : (list_to_map entries : gmap string Z) = repoLanguages).
  { rewrite (list_to_map_proper _ _ Hnodup Hperm). apply list_to_map_to_list. }
  rewrite Hmap. unfold sum_counts. rewrite lookup_union_with.
  destruct (languageCounts !! k), (repoLanguages !! k); simpl; try done;
    f_equal; lia.
Qed.

Lemma add_entries_sum (languageCounts repoLanguages : gmap string Z) :
  add_entries languageCounts repoLanguages = sum_counts languageCounts repoLanguages.
Proof. by apply add_entries_any_order. Qed.

Lemma sum_counts_empty_l (m : gmap string Z) : sum_counts ∅ m = m.
Proof. unfold sum_counts. apply (left_id _ _). Qed.

Lemma sum_counts_lookup (m1 m2 : gmap string Z) (lang : string) :
  sum_counts m1 m2 !! lang =
    match m1 !! lang, m2 !! lang with
    | Some a, Some b => Some (a + b)
    | Some a, None => Some a
    | None, o => o
    end.
Proof.
  unfold sum_counts. rewrite lookup_union_with.
  by destruct (m1 !! lang), (m2 !! lang).
Qed.

Lemma sum_counts_disjoint (m1 m2 : gmap string Z) :
  m1 ##ₘ m2 -> sum_counts m1 m2 = m1 ∪ m2.
Proof.
  intros Hdisj. apply map_eq. intros lang.
  rewrite sum_counts_lookup, lookup_union.
  specialize (Hdisj lang).
  destruct (m1 !! lang), (m2 !! lang); simpl in *; done.
Qed.

Section AggregatorFacts.

Variable env : Env.

Lemma hit_or_miss (repo : Repo) (w : World) :
  (exists entry,
     cache w !! repo_full_name repo = Some entry
     /\ latestCommit entry = repo_pushed_at repo)
  \/ absent_or_stale (cache w) repo.
Proof.
  unfold absent_or_stale.
  destruct (cache w !! repo_full_name repo) as [entry|]; [|by right].
  destruct (decide (latestCommit entry = repo_pushed_at repo)); eauto.
Qed.

(** The resolver never changes the exclusion rules. *)
Lemma fetch_blacklist (repo : Repo) (w : World) :
  blacklist (fetchLanguageCountsForRepo env repo w).2 = blacklist w.
Proof.
  destruct (hit_or_miss repo w) as [(entry & Hlook & Heq)|Hstale].
  - by rewrite (fetch_hit env repo w entry).
  - destruct (fetch_miss_outcome env repo w Hstale)
      as (o & w' & after & -> & _ & _ & Hbl & _). done.
Qed.

Lemma aggregate_skip (repo : Repo) (rest : list Repo)
    (languageCounts : gmap string Z) (w : World) :
  repo_name repo ∈ blacklist_repos (blacklist w) ->
  aggregate_from env (repo :: rest) languageCounts w =
    aggregate_from env rest languageCounts w.
Proof.
  intros Hin. simpl. run. unfold includes.
  by rewrite bool_decide_eq_true_2.
Qed.

Lemma aggregate_visit (repo : Repo) (rest : list Repo)
    (languageCounts : gmap string Z) (w : World) :
  repo_name repo ∉ blacklist_repos (blacklist w) ->
  aggregate_from env (repo :: rest) languageCounts w =
    match fetchLanguageCountsForRepo env repo w with
    | (Returns repoLanguages, w') =>
        aggregate_from env rest (sum_counts languageCounts repoLanguages) w'
    | (Throws e, w') => (Throws e, w')
    end.
Proof.
  intros Hnot. simpl. run. unfold includes.
  rewrite bool_decide_eq_false_2 by done. simpl.
  destruct (fetchLanguageCountsForRepo env repo w) as [[m|e] w']; [|done].
  by rewrite add_entries_sum.
Qed.

(** An excluded repository can be dropped from the list: the run is the
    same in its result, its final state and its trace. *)
Lemma aggregate_drop_excluded (repo : Repo) (before after : list Repo) :
  forall (languageCounts : gmap string Z) (w : World),
    repo_name repo ∈ blacklist_repos (blacklist w) ->
    aggregate_from env (before ++ repo :: after) languageCounts w =
      aggregate_from env (before ++ after) languageCounts w.
Proof.
  induction before as [|r before IH]; intros languageCounts w Hin.
  - by apply aggregate_skip.
  - rewrite <- !app_comm_cons.
    destruct (decide (repo_name r ∈ blacklist_repos (blacklist w))) as [Hr|Hr].
    + rewrite !aggregate_skip by done. by apply IH.
    + rewrite !aggregate_visit by done.
      pose proof (fetch_blacklist r w) as Hbl.
      destruct (fetchLanguageCountsForRepo env r w) as [[m|e] w']; [|done].
      apply IH. simpl in Hbl. by rewrite Hbl.
Qed.

Lemma find_no_match (repos : list Repo) (wanted : string) :
  (forall r, r ∈ repos -> repo_name r <> wanted) ->
  find (fun r => String.eqb (repo_name r) wanted) repos = None.
Proof.
  induction repos as [|r repos IH]; intros Hall; simpl; [done|].
  destruct (String.eqb_spec (repo_name r) wanted) as [Heq|Hne].
  - exfalso. apply (Hall r); [apply elem_of_cons; by left|done].
  - apply IH. intros r' Hr'. apply Hall. apply elem_of_cons. by right.
Qed.

Lemma getRepositories_fulfilled (username : string) (repos : list Repo)
    (w : World) :
  github_repos env (trace w) (repos_url username) = Fulfilled repos ->
  getRepositories env username w =
    (Returns repos, emit (GetRepositories (repos_url username)) w).
Proof.
  intros Hans. unfold getRepositories, axios_get_repos. run. by rewrite Hans.
Qed.

Lemma getRateLimit_fulfilled (remaining : Z) (w : World) :
  github_rate_limit env (trace w) = Fulfilled remaining ->
  getRateLimit env w = (Returns remaining, emit GetRateLimit w).
Proof.
  intros Hans. unfold getRateLimit, axios_get_rate_limit. run. by rewrite Hans.
Qed.

End AggregatorFacts.

(** C4. Aggregating no repository returns the empty mapping.  Aggregating
    two repositories that the aggregator resolves, to [m1] and then to
    [m2], returns their pointwise sum: a language that both report maps to
    the sum of the two counts, and when no language is shared the result is
    the union, each language keeping the count its repository reported. *)
Theorem aggregate_pointwise_additive (env : Env) (w : World) :
  aggregateLanguageCounts env [] w = (Returns ∅, w)
  /\ forall (r1 r2 : Repo) (m1 m2 : gmap string Z) (w1 w2 : World),
       repo_name r1 ∉ blacklist_repos (blacklist w) ->
       repo_name r2 ∉ blacklist_repos (blacklist w) ->
       fetchLanguageCountsForRepo env r1 w = (Returns m1, w1) ->
       fetchLanguageCountsForRepo env r2 w1 = (Returns m2, w2) ->
       exists total,
         aggregateLanguageCounts env [r1; r2] w = (Returns total, w2)
         /\ total = sum_counts m1 m2
         /\ (forall lang a b,
               m1 !! lang = Some a -> m2 !! lang = Some b ->
               total !! lang = Some (a + b))
         /\ (m1 ##ₘ m2 ->
             total = m1 ∪ m2
             /\ forall lang n,
                  m1 !! lang = Some n \/ m2 !! lang = Some n ->
                  total !! lang = Some n).
Proof.
  split; [done|].
  intros r1 r2 m1 m2 w1 w2 Hr1 Hr2 Hrun1 Hrun2.
  exists (sum_counts m1 m2). split.
  { unfold aggregateLanguageCounts.
    rewrite aggregate_visit, Hrun1 by done.
    pose proof (fetch_blacklist env r1 w) as Hbl. rewrite Hrun1 in Hbl.
    simpl in Hbl.
    rewrite aggregate_visit, Hrun2 by (by rewrite Hbl).
    simpl. run. by rewrite sum_counts_empty_l. }
  split; [done|]. split.
  - intros lang a b Ha Hb. by rewrite sum_counts_lookup, Ha, Hb.
  - intros Hdisj. split; [by apply sum_counts_disjoint|].
    intros lang n Hn. rewrite sum_counts_lookup.
    specialize (Hdisj lang).
    destruct (m1 !! lang), (m2 !! lang), Hn; simpl in *; try done; congruence.
Qed.

Lemma aggregate_pointwise_additive_witness :
  ("app" ∉ blacklist_repos (blacklist Scenario.world0))
  /\ ("lib" ∉ blacklist_repos (blacklist Scenario.world0))
  /\ exists total w2,
       aggregateLanguageCounts Scenario.env_ok
         [Scenario.demo_app Scenario.february; Scenario.demo_lib]
         Scenario.world0 = (Returns total, w2)
       /\ total !! "JS" = Some 162
       /\ total !! "C" = Some 30
       /\ total !! "CSS" = Some 20
       /\ total !! "Go" = None.
Proof.
  assert (Happ : "app" ∉ blacklist_repos (blacklist Scenario.world0)).
  { apply (bool_decide_unpack _). vm_compute. exact I. }
  assert (Hlib : "lib" ∉ blacklist_repos (blacklist Scenario.world0)).
  { apply (bool_decide_unpack _). vm_compute. exact I. }
  split; [exact Happ|]. split; [exact Hlib|].
  destruct (aggregate_pointwise_additive Scenario.env_ok Scenario.world0)
    as [_ Htwo].
  destruct (Htwo (Scenario.demo_app Scenario.february) Scenario.demo_lib
              _ _ _ _ Happ Hlib
              ltac:(vm_compute; reflexivity) ltac:(vm_compute; reflexivity))
    as (total & Hrun & Htotal & _).
  eexists total, _. split; [exact Hrun|].
  rewrite Htotal. repeat split; vm_compute; reflexivity.
Defined.

(** C5. A repository whose short name is in the repository-exclusion list
    can be removed from the list given to the aggregator without changing
    anything: the result, the final state and the trace of calls are the
    same, so nothing is resolved for it and it adds no count.  Named
    explicitly on the single-repository path, the same repository is handed
    to the resolver all the same. *)
Theorem excluded_repo_skipped_but_resolvable (env : Env) (repo : Repo)
    (w : World) :
  repo_name repo ∈ blacklist_repos (blacklist w) ->
  (forall before after : list Repo,
     aggregateLanguageCounts env (before ++ repo :: after) w =
       aggregateLanguageCounts env (before ++ after) w)
  /\ forall (username : string) (repos : list Repo),
       repo_name repo <> "" ->
       github_repos env (trace w) (repos_url username) = Fulfilled repos ->
       find (fun r => String.eqb (repo_name r) (repo_name repo)) repos
         = Some repo ->
       countLinesOfCode env username (Some (repo_name repo)) w =
         fetchLanguageCountsForRepo env repo
           (emit (GetRepositories (repos_url username)) w).
Proof.
  intros Hin. split.
  - intros before after. by apply aggregate_drop_excluded.
  - intros username repos Hname Hans Hfind. unfold countLinesOfCode.
    unfold mbind, M_bind.
    rewrite (getRepositories_fulfilled env username repos w Hans).
    destruct (String.eqb_spec (repo_name repo) "") as [|_]; [done|].
    simpl. by rewrite Hfind.
Qed.

Lemma excluded_repo_skipped_but_resolvable_witness :
  ("secret" ∈ blacklist_repos (blacklist Scenario.world0))
  /\ aggregateLanguageCounts Scenario.env_ok Scenario.listing Scenario.world0
     = aggregateLanguageCounts Scenario.env_ok
         [Scenario.demo_app Scenario.february; Scenario.demo_lib]
         Scenario.world0
  /\ exists fresh w',
       countLinesOfCode Scenario.env_ok "demo" (Some "secret") Scenario.world0
         = (Returns fresh, w')
       /\ fresh !! "JS" = Some 155
       /\ is_Some (cache w' !! "demo/secret")
       /\ loc_calls (trace w') = 1%nat.
Proof.
  assert (Hin : repo_name Scenario.demo_secret
                  ∈ blacklist_repos (blacklist Scenario.world0)).
  { apply (bool_decide_unpack _). vm_compute. exact I. }
  split; [exact Hin|].
  destruct (excluded_repo_skipped_but_resolvable Scenario.env_ok
              Scenario.demo_secret Scenario.world0 Hin) as [Hdrop Hone].
  split; [exact (Hdrop [] _)|].
  pose proof (Hone "demo" Scenario.listing ltac:(discriminate) eq_refl eq_refl)
    as Hnamed.
  change (repo_name Scenario.demo_secret) with "secret" in Hnamed.
  rewrite Hnamed.
  eexists _, _. split; [vm_compute; reflexivity|].
  repeat split; try (vm_compute; reflexivity).
  eexists. vm_compute. reflexivity.
Defined.

(** ** Properties of the two routes *)

(** C6. On either route, when the budget check reports [remaining = 0] the
    handler answers 429, and the only effect of the request is the budget
    check itself: the trace gains no repository listing and no call to the
    line counter, and the cache is untouched. *)
Theorem exhausted_budget_answers_429 (env : Env) (w : World)
    (username repoName : string) :
  github_rate_limit env (trace w) = Fulfilled 0 ->
  get_languages_username env username w =
    (Returns {| status := 429;
                body := JsonError "Rate limit exceeded. Try again later." |},
     emit GetRateLimit w)
  /\ get_languages_username_repoName env username repoName w =
       (Returns {| status := 429;
                   body := JsonError "Rate limit exceeded. Try again later." |},
        emit GetRateLimit w).
Proof.
  intros Hzero.
  unfold get_languages_username, get_languages_username_repoName.
  unfold try_catch, mbind, M_bind.
  rewrite (getRateLimit_fulfilled env 0 w Hzero). by split.
Qed.

Lemma exhausted_budget_answers_429_witness :
  github_rate_limit Scenario.env_exhausted (trace Scenario.world0) = Fulfilled 0
  /\ get_languages_username Scenario.env_exhausted "demo" Scenario.world0 =
       (Returns {| status := 429;
                   body := JsonError "Rate limit exceeded. Try again later." |},
        emit GetRateLimit Scenario.world0)
  /\ trace (get_languages_username_repoName Scenario.env_exhausted "demo" "app"
              Scenario.world0).2 = [GetRateLimit].
Proof.
  destruct (exhausted_budget_answers_429 Scenario.env_exhausted Scenario.world0
              "demo" "app" eq_refl) as [Hall Hone].
  split; [reflexivity|]. split; [exact Hall|]. rewrite Hone. reflexivity.
Defined.

(** C9. On the single-repository route, a name that is the short name of no
    listed repository makes [countLinesOfCode] throw the error
    "Repository <name> not found"; the handler answers it like any other
    failure, with status 500 and the message in the body, and nothing is
    resolved. *)
Theorem unknown_repository_answers_500 (env : Env) (w : World)
    (username repoName : string) (remaining : Z) (repos : list Repo) :
  github_rate_limit env (trace w) = Fulfilled remaining ->
  remaining <> 0 ->
  github_repos env (trace w ++ [GetRateLimit]) (repos_url username)
    = Fulfilled repos ->
  repoName <> "" ->
  (forall r, r ∈ repos -> repo_name r <> repoName) ->
  countLinesOfCode env username (Some repoName) (emit GetRateLimit w) =
    (Throws (Error ("Repository " +:+ repoName +:+ " not found")),
     emit (GetRepositories (repos_url username)) (emit GetRateLimit w))
  /\ get_languages_username_repoName env username repoName w =
       (Returns {| status := 500;
                   body := JsonError
                             ("Repository " +:+ repoName +:+ " not found") |},
        emit (GetRepositories (repos_url username)) (emit GetRateLimit w)).
Proof.
  intros Hrate Hleft Hlist Hname Hnone.
  assert (Hthrow : countLinesOfCode env username (Some repoName)
                     (emit GetRateLimit w) =
            (Throws (Error ("Repository " +:+ repoName +:+ " not found")),
             emit (GetRepositories (repos_url username)) (emit GetRateLimit w))).
  { unfold countLinesOfCode. unfold mbind, M_bind.
    rewrite (getRepositories_fulfilled env username repos
               (emit GetRateLimit w) Hlist).
    destruct (String.eqb_spec repoName "") as [|_]; [done|]. simpl.
    by rewrite (find_no_match repos repoName Hnone). }
  split; [exact Hthrow|].
  unfold get_languages_username_repoName. unfold try_catch, mbind, M_bind.
  rewrite (getRateLimit_fulfilled env remaining w Hrate).
  destruct (Z.eqb_spec remaining 0) as [|_]; [done|].
  by rewrite Hthrow.
Qed.

Lemma unknown_repository_answers_500_witness :
  4999 <> 0
  /\ "nope" <> ""
  /\ get_languages_username_repoName Scenario.env_ok "demo" "nope"
       Scenario.world0 =
       (Returns {| status := 500;
                   body := JsonError "Repository nope not found" |},
        emit (GetRepositories (repos_url "demo"))
          (emit GetRateLimit Scenario.world0)).
Proof.
  split; [discriminate|]. split; [discriminate|].
  apply (unknown_repository_answers_500 Scenario.env_ok Scenario.world0
           "demo" "nope" 4999 Scenario.listing);
    [reflexivity|discriminate|reflexivity|discriminate|].
  intros r Hr. vm_compute in Hr.
  repeat (apply elem_of_cons in Hr as [->|Hr]; [discriminate|]).
  by apply elem_of_nil in Hr.
Defined.

(** ** Properties of the startup *)

(** What [loadDataFromFile] does with a file that exists: a parse error is
    logged and the default returned; a parsed array or object is returned as
    it is; any other parsed value gives the default, and nothing is logged. *)
Lemma loadDataFromFile_present (filePath : string) (defaultValue : json)
    (d : Disk) (content : file_content) :
  files d !! filePath = Some content ->
  loadDataFromFile filePath defaultValue d =
    match content with
    | Unparsable err =>
        (defaultValue,
         disk_log ("Error reading " +:+ filePath +:+ ":") err d)
    | Parses (JArray items) => (JArray items, d)
    | Parses (JObject members) => (JObject members, d)
    | Parses _ => (defaultValue, d)
    end.
Proof.
  intros Hfile. unfold loadDataFromFile. rewrite Hfile.
  destruct content as [err|data]; [done|].
  destruct data as [|b|n|s|items|members]; simpl; try done.
  - by destruct b.
  - by destruct (n =? 0).
  - by destruct (String.eqb s "").
Qed.

(** The earlier loader refuses, with a log line, every document whose
    [repos] or [paths] is not an array. *)
Lemma legacy_load_blacklist_malformed (blacklist data : json) (d : Disk) :
  files d !! BLACKLIST_FILE = Some (Parses data) ->
  isArray (member data "repos") && isArray (member data "paths") = false ->
  exists label detail,
    Legacy.load_blacklist blacklist d = (blacklist, disk_log label detail d).
Proof.
  intros Hfile Hbad. unfold Legacy.load_blacklist. rewrite Hfile.
  destruct data; try rewrite Hbad; eauto.
Qed.

(** C3. The blacklist document [{}], which lacks the three array fields, is
    taken as the in-memory blacklist as it is and nothing is logged, so its
    [repos] is undefined afterwards; the document [42] gives the defaults,
    but nothing is logged either.  The earlier loader of the repository
    logs and keeps the defaults on the same document [{}]. *)
Theorem malformed_blacklist_not_rejected :
  blacklist_well_formed (JObject []) = false
  /\ startup Scenario.disk_no_fields
     = (JObject [], JObject [], Scenario.disk_no_fields)
  /\ JObject [] <> default_blacklist
  /\ member (JObject []) "repos" = None
  /\ loadDataFromFile BLACKLIST_FILE default_blacklist Scenario.disk_number
     = (default_blacklist, Scenario.disk_number)
  /\ Legacy.load_blacklist Legacy.default_blacklist Scenario.disk_no_fields
     = (Legacy.default_blacklist,
        disk_log "Blacklist data is not in the correct format" ""
          Scenario.disk_no_fields).
Proof.
  repeat split; try reflexivity. discriminate.
Qed.

(** ** Further properties of the startup *)

(** X1. Whatever the file holds, [loadDataFromFile] returns either the
    default it was given or an array or object read from the file: never
    [null], a boolean, a number or a string of the file. *)
Theorem loadDataFromFile_default_or_object (filePath : string)
    (defaultValue : json) (d : Disk) :
  (loadDataFromFile filePath defaultValue d).1 = defaultValue
  \/ (files d !! filePath
        = Some (Parses (loadDataFromFile filePath defaultValue d).1)
      /\ truthy (loadDataFromFile filePath defaultValue d).1 = true
      /\ typeof (loadDataFromFile filePath defaultValue d).1 = "object").
Proof.
  unfold loadDataFromFile.
  destruct (files d !! filePath) as [[err|data]|] eqn:Hfile; simpl; auto.
  destruct (truthy data) eqn:Htruthy; simpl; auto.
  destruct (String.eqb_spec (typeof data) "object"); simpl; auto.
Qed.

(** X2. [loadDataFromFile] never overwrites a file that exists and never
    touches another path; a missing file is created with the default, and
    nothing is logged for it. *)
Theorem loadDataFromFile_frame (filePath : string) (defaultValue : json)
    (d : Disk) :
  (forall other,
     other <> filePath ->
     files (loadDataFromFile filePath defaultValue d).2 !! other
       = files d !! other)
  /\ (is_Some (files d !! filePath) ->
      files (loadDataFromFile filePath defaultValue d).2 = files d)
  /\ (files d !! filePath = None ->
      files (loadDataFromFile filePath defaultValue d).2 !! filePath
        = Some (Parses defaultValue)
      /\ console (loadDataFromFile filePath defaultValue d).2 = console d).
Proof.
  unfold loadDataFromFile.
  destruct (files d !! filePath) as [[err|data]|] eqn:Hfile; simpl.
  - repeat split; try done.
  - destruct (truthy data && String.eqb (typeof data) "object");
      repeat split; done.
  - split; [|split].
    + intros other Hne. by rewrite lookup_insert_ne.
    + by intros [? ?].
    + intros _. split; [apply lookup_insert_eq|done].
Qed.

Lemma loadDataFromFile_frame_witness :
  CACHE_FILE <> BLACKLIST_FILE
  /\ files Cases.disk_fresh !! BLACKLIST_FILE = None
  /\ files (loadDataFromFile BLACKLIST_FILE default_blacklist
              Cases.disk_fresh).2 !! BLACKLIST_FILE
     = Some (Parses default_blacklist)
  /\ files (loadDataFromFile BLACKLIST_FILE default_blacklist
              Cases.disk_fresh).2 !! CACHE_FILE = None.
Proof.
  destruct (loadDataFromFile_frame BLACKLIST_FILE default_blacklist
              Cases.disk_fresh) as (Hother & _ & Hmissing).
  split; [discriminate|]. split; [reflexivity|].
  split; [apply (Hmissing eq_refl)|].
  rewrite Hother by discriminate. reflexivity.
Defined.

(** X3. Loading the same path twice gives the same value as loading it
    once, and the second load leaves every file as the first one left it. *)
Theorem loadDataFromFile_idempotent (filePath : string) (defaultValue : json)
    (d : Disk) :
  (loadDataFromFile filePath defaultValue
     (loadDataFromFile filePath defaultValue d).2).1
    = (loadDataFromFile filePath defaultValue d).1
  /\ files (loadDataFromFile filePath defaultValue
              (loadDataFromFile filePath defaultValue d).2).2
     = files (loadDataFromFile filePath defaultValue d).2.
Proof.
  destruct (files d !! filePath) as [[err|data]|] eqn:Hfile.
  - assert (Hfirst : loadDataFromFile filePath defaultValue d =
              (defaultValue,
               disk_log ("Error reading " +:+ filePath +:+ ":") err d))
      by (unfold loadDataFromFile; by rewrite Hfile).
    rewrite Hfirst. unfold loadDataFromFile. simpl. by rewrite Hfile.
  - destruct (truthy data && String.eqb (typeof data) "object") eqn:Hobj.
    + assert (Hfirst : loadDataFromFile filePath defaultValue d = (data, d))
        by (unfold loadDataFromFile; by rewrite Hfile, Hobj).
      rewrite Hfirst. simpl. by rewrite Hfirst.
    + assert (Hfirst : loadDataFromFile filePath defaultValue d
                = (defaultValue, d))
        by (unfold loadDataFromFile; by rewrite Hfile, Hobj).
      rewrite Hfirst. simpl. by rewrite Hfirst.
  - assert (Hfirst : loadDataFromFile filePath defaultValue d =
              (defaultValue, disk_write filePath defaultValue d))
      by (unfold loadDataFromFile; by rewrite Hfile).
    rewrite Hfirst. unfold loadDataFromFile. simpl. rewrite lookup_insert_eq.
    by destruct (truthy defaultValue && String.eqb (typeof defaultValue) "object").
Qed.

(** X4. Started where neither document exists, the server takes the two
    defaults, creates both files with them and logs nothing; started again
    on the disk it left, it reads the same two values back and changes
    nothing. *)
Theorem startup_creates_then_rereads (d : Disk) :
  files d !! CACHE_FILE = None ->
  files d !! BLACKLIST_FILE = None ->
  exists d',
    startup d = (default_cache, default_blacklist, d')
    /\ files d' =
         <[BLACKLIST_FILE := Parses default_blacklist]>
           (<[CACHE_FILE := Parses default_cache]> (files d))
    /\ console d' = console d
    /\ startup d' = (default_cache, default_blacklist, d').
Proof.
  intros Hcache Hblacklist. unfold startup, loadDataFromFile. simpl.
  rewrite Hcache. simpl. rewrite lookup_insert_ne by discriminate.
  rewrite Hblacklist. simpl. eexists. split; [reflexivity|]. simpl.
  repeat split.
  rewrite lookup_insert_ne by discriminate. rewrite lookup_insert_eq. simpl.
  rewrite lookup_insert_eq. reflexivity.
Qed.

Lemma startup_creates_then_rereads_witness :
  files Cases.disk_fresh !! CACHE_FILE = None
  /\ files Cases.disk_fresh !! BLACKLIST_FILE = None
  /\ exists d',
       startup Cases.disk_fresh = (JObject [], default_blacklist, d')
       /\ files d' !! CACHE_FILE = Some (Parses (JObject []))
       /\ startup d' = (JObject [], default_blacklist, d').
Proof.
  split; [reflexivity|]. split; [reflexivity|].
  destruct (startup_creates_then_rereads Cases.disk_fresh eq_refl eq_refl)
    as (d' & Hrun & Hfiles & _ & Hagain).
  exists d'. split; [exact Hrun|]. split; [|exact Hagain].
  rewrite Hfiles. reflexivity.
Defined.

(** ** Further properties of the resolver *)

Lemma total_lines_insert (m : gmap string Z) (k : string) (n : Z) :
  total_lines (<[k := n]> m) = total_lines m - default 0 (m !! k) + n.
Proof.
  unfold total_lines.
  assert (Hcomm : forall (m' : gmap string Z) (j1 j2 : string) (z1 z2 y : Z),
            j1 <> j2 -> m' !! j1 = Some z1 -> m' !! j2 = Some z2 ->
            z1 + (z2 + y) = z2 + (z1 + y)) by (intros; lia).
  destruct (m !! k) as [old|] eqn:Hk; simpl.
  - rewrite <- (insert_delete_eq m k n).
    rewrite (map_fold_insert_L _ _ _ _ _ (Hcomm _)) by apply lookup_delete_eq.
    rewrite <- (insert_delete_id m k old Hk) at 2.
    rewrite (map_fold_insert_L _ _ _ _ _ (Hcomm _)) by apply lookup_delete_eq.
    lia.
  - rewrite (map_fold_insert_L _ _ _ _ _ (Hcomm _)) by done. lia.
Qed.

Lemma counted_lines_cons (excluded : list string) (r : LanguageData)
    (records : list LanguageData) :
  counted_lines excluded (r :: records) =
    (if decide (language r ∈ excluded) then 0 else linesOfCode r)
      + counted_lines excluded records.
Proof.
  unfold counted_lines. rewrite filter_cons.
  destruct (decide (language r ∉ excluded)) as [Hnot|Hin].
  - rewrite decide_False by done. by rewrite fmap_cons.
  - rewrite decide_True; [done|]. by apply dec_stable.
Qed.

Lemma count_language_total (bl : Blacklist) (languages : gmap string Z)
    (r : LanguageData) :
  total_lines (count_language bl languages r) =
    total_lines languages
      + (if decide (language r ∈ blacklist_languages bl) then 0
         else linesOfCode r).
Proof.
  unfold count_language, includes. cbv zeta. rewrite or_zero_default.
  destruct (decide (language r ∈ blacklist_languages bl)) as [Hin|Hnot].
  - rewrite bool_decide_eq_true_2 by done. simpl. lia.
  - rewrite bool_decide_eq_false_2 by done. simpl.
    rewrite total_lines_insert. lia.
Qed.

Lemma count_fold_total (bl : Blacklist) (records : list LanguageData) :
  forall languages : gmap string Z,
    total_lines (foldl (count_language bl) languages records) =
      total_lines languages + counted_lines (blacklist_languages bl) records.
Proof.
  induction records as [|r records IH]; intros languages.
  - simpl. unfold counted_lines. simpl. lia.
  - cbn [foldl]. rewrite IH, count_language_total, counted_lines_cons. lia.
Qed.

Lemma reported_lines_permutation (lang : string)
    (records records' : list LanguageData) :
  records ≡ₚ records' ->
  reported_lines lang records = reported_lines lang records'.
Proof.
  induction 1 as [|r l l' _ IH|r1 r2 l|l1 l2 l3 _ IH1 _ IH2].
  - done.
  - by rewrite !reported_lines_cons, IH.
  - rewrite !reported_lines_cons. lia.
  - by rewrite IH1.
Qed.

Lemma reported_lines_nonneg (lang : string) (records : list LanguageData) :
  (forall r, r ∈ records -> 0 <= linesOfCode r) ->
  0 <= reported_lines lang records.
Proof.
  induction records as [|r records IH]; intros Hall.
  - done.
  - rewrite reported_lines_cons.
    assert (0 <= linesOfCode r) by (apply Hall, elem_of_cons; by left).
    assert (0 <= reported_lines lang records).
    { apply IH. intros r' Hr'. apply Hall, elem_of_cons. by right. }
    destruct (decide _); lia.
Qed.

(** Number of writes a miss performs: one when it returns, none when it
    throws. *)
Lemma fetch_miss_writes (env : Env) (repo : Repo) (w : World) :
  absent_or_stale (cache w) repo ->
  cache_writes (trace (fetchLanguageCountsForRepo env repo w).2) =
    (cache_writes (trace w)
     + match (fetchLanguageCountsForRepo env repo w).1 with
       | Returns _ => 1
       | Throws _ => 0
       end)%nat.
Proof.
  intros Hstale. rewrite fetch_miss by done.
  run. unfold axios_get_loc.
  destruct (codetabs_loc _ _ _) as [data|msg]; simpl.
  - destruct (build_languages (blacklist w) data) as [fresh|e]; simpl.
    + unfold saveCacheToFile. simpl.
      destruct (fs_writeFile _ _ _ _) as [err|]; simpl;
        rewrite !cache_writes_app; simpl; unfold cache_writes; simpl; lia.
    + rewrite cache_writes_app. unfold cache_writes. simpl. lia.
  - rewrite cache_writes_app. unfold cache_writes. simpl. lia.
Qed.

(** X5. A resolution that returns can be repeated at once: the second one
    returns the same mapping and leaves the world as the first left it, so
    it makes no call and no write. *)
Theorem resolution_idempotent (env : Env) (repo : Repo) (w w' : World)
    (counts : gmap string Z) :
  fetchLanguageCountsForRepo env repo w = (Returns counts, w') ->
  fetchLanguageCountsForRepo env repo w' = (Returns counts, w').
Proof.
  intros Hrun.
  destruct (hit_or_miss repo w) as [(entry & Hlook & Heq)|Hstale].
  - rewrite (fetch_hit env repo w entry Hlook Heq) in Hrun.
    injection Hrun as <- <-. by apply fetch_hit.
  - destruct (fetch_miss_outcome env repo w Hstale)
      as (o & w1 & after & Hrun1 & _ & _ & _ & Hcase).
    rewrite Hrun in Hrun1. injection Hrun1 as <- <-.
    apply (fetch_hit env repo w'
             {| latestCommit := repo_pushed_at repo; languages := counts |});
      [|done].
    rewrite Hcase. apply lookup_insert_eq.
Qed.

Lemma resolution_idempotent_witness :
  exists counts w',
    fetchLanguageCountsForRepo Scenario.env_disk_full
      (Scenario.demo_app Scenario.february) Scenario.world0
      = (Returns counts, w')
    /\ fetchLanguageCountsForRepo Scenario.env_disk_full
         (Scenario.demo_app Scenario.february) w' = (Returns counts, w').
Proof.
  eexists _, _. split; [vm_compute; reflexivity|].
  apply (resolution_idempotent Scenario.env_disk_full
           (Scenario.demo_app Scenario.february) Scenario.world0).
  vm_compute. reflexivity.
Defined.

(** X6. A resolution either is served from an up-to-date entry and leaves
    the world as it was, or makes exactly one call to the line counter; in
    the second case it writes the cache file exactly once when it returns
    and not at all when it throws. *)
Theorem resolution_effects (env : Env) (repo : Repo) (w : World) :
  (up_to_date (cache w) repo
   /\ (fetchLanguageCountsForRepo env repo w).2 = w)
  \/ (absent_or_stale (cache w) repo
      /\ loc_calls (trace (fetchLanguageCountsForRepo env repo w).2)
         = S (loc_calls (trace w))
      /\ cache_writes (trace (fetchLanguageCountsForRepo env repo w).2)
         = (cache_writes (trace w)
            + match (fetchLanguageCountsForRepo env repo w).1 with
              | Returns _ => 1
              | Throws _ => 0
              end)%nat).
Proof.
  destruct (hit_or_miss repo w) as [(entry & Hlook & Heq)|Hstale].
  - left. split; [by exists entry|].
    by rewrite (fetch_hit env repo w entry Hlook Heq).
  - right. split; [done|]. split; [|by apply fetch_miss_writes].
    destruct (fetch_miss_outcome env repo w Hstale)
      as (o & w' & after & -> & Htrace & Hcalls & _). simpl.
    rewrite Htrace.
    change (GetLoc ?u :: after) with ([GetLoc u] ++ after).
    rewrite !loc_calls_app, Hcalls. unfold loc_calls at 2. simpl. lia.
Qed.

(** X7. The mapping built from the records of an answer does not depend on
    the order in which the records come. *)
Theorem fresh_mapping_order_independent (bl : Blacklist)
    (records records' : list LanguageData) :
  records ≡ₚ records' ->
  build_languages bl (LocArray (ItemRecord <$> records))
    = build_languages bl (LocArray (ItemRecord <$> records')).
Proof.
  intros Hperm. simpl. rewrite !forEach_records. f_equal.
  apply map_eq. intros lang. rewrite !fresh_languages_expected.
  unfold expected_count.
  rewrite (reported_lines_permutation lang records records' Hperm).
  destruct (decide (lang ∈ blacklist_languages bl)); [done|].
  destruct (decide (lang ∈ language <$> records)) as [Hin|Hnot];
    destruct (decide (lang ∈ language <$> records')) as [Hin'|Hnot'];
    try done; exfalso.
  - apply Hnot'. by rewrite <- Hperm.
  - apply Hnot. by rewrite Hperm.
Qed.

Lemma fresh_mapping_order_independent_witness :
  Scenario.records ≡ₚ reverse Scenario.records
  /\ build_languages Scenario.rules (LocArray (ItemRecord <$> Scenario.records))
     = build_languages Scenario.rules
         (LocArray (ItemRecord <$> reverse Scenario.records)).
Proof.
  assert (Hperm : Scenario.records ≡ₚ reverse Scenario.records)
    by (symmetry; apply reverse_Permutation).
  split; [exact Hperm|].
  apply (fresh_mapping_order_independent Scenario.rules _ _ Hperm).
Defined.

(** X8. The mapping built from an answer conserves the lines: its counts
    add up to the lines of the records whose language is not excluded. *)
Theorem fresh_mapping_conserves_lines (bl : Blacklist)
    (records : list LanguageData) :
  exists fresh,
    build_languages bl (LocArray (ItemRecord <$> records)) = Returns fresh
    /\ total_lines fresh = counted_lines (blacklist_languages bl) records.
Proof.
  eexists. split; [simpl; apply forEach_records|].
  rewrite count_fold_total. unfold total_lines. rewrite map_fold_empty. lia.
Qed.

(** X9. When no record of the answer reports a negative count, no count of
    the mapping built from it is negative. *)
Theorem fresh_counts_nonnegative (bl : Blacklist)
    (records : list LanguageData) (fresh : gmap string Z) :
  (forall r, r ∈ records -> 0 <= linesOfCode r) ->
  build_languages bl (LocArray (ItemRecord <$> records)) = Returns fresh ->
  forall lang n, fresh !! lang = Some n -> 0 <= n.
Proof.
  intros Hall Hbuild lang n Hn. simpl in Hbuild.
  rewrite forEach_records in Hbuild. injection Hbuild as <-.
  rewrite fresh_languages_expected in Hn. unfold expected_count in Hn.
  repeat destruct (decide _); try done.
  injection Hn as <-. by apply reported_lines_nonneg.
Qed.

Lemma fresh_counts_nonnegative_witness :
  exists fresh,
    build_languages Scenario.rules (LocArray (ItemRecord <$> Scenario.records))
      = Returns fresh
    /\ fresh !! "JS" = Some 155
    /\ 0 <= 155.
Proof.
  eexists. split; [vm_compute; reflexivity|]. split; [vm_compute; reflexivity|].
  apply (fresh_counts_nonnegative Scenario.rules Scenario.records _
           ltac:(intros r Hr; vm_compute in Hr;
                 repeat (apply elem_of_cons in Hr as [->|Hr]; [simpl; lia|]);
                 by apply elem_of_nil in Hr)
           ltac:(vm_compute; reflexivity) "JS").
  vm_compute. reflexivity.
Defined.

(** ** Further properties of the aggregator *)

Lemma sum_counts_empty_r (m : gmap string Z) : sum_counts m ∅ = m.
Proof. unfold sum_counts. apply (right_id _ _). Qed.

Lemma sum_counts_swap (m a b : gmap string Z) :
  sum_counts (sum_counts m a) b = sum_counts (sum_counts m b) a.
Proof.
  apply map_eq. intros lang. rewrite !sum_counts_lookup.
  destruct (m !! lang), (a !! lang), (b !! lang); try done; f_equal; lia.
Qed.

Lemma sum_counts_fold_permutation (l l' : list (gmap string Z)) :
  l ≡ₚ l' ->
  forall m, foldl sum_counts m l = foldl sum_counts m l'.
Proof.
  induction 1 as [|a l l' _ IH|a b l|l1 l2 l3 _ IH1 _ IH2]; intros m.
  - done.
  - simpl. apply IH.
  - simpl. by rewrite sum_counts_swap.
  - by rewrite IH1.
Qed.

Lemma sum_counts_insert_r (a b : gmap string Z) (k : string) (n : Z) :
  b !! k = None ->
  sum_counts a (<[k := n]> b) =
    <[k := default 0 (a !! k) + n]> (sum_counts a b).
Proof.
  intros Hk. apply map_eq. intros lang. rewrite sum_counts_lookup.
  destruct (decide (lang = k)) as [->|Hne].
  - rewrite !lookup_insert_eq. by destruct (a !! k).
  - rewrite !lookup_insert_ne by done. by rewrite sum_counts_lookup.
Qed.

Lemma sum_counts_total (a b : gmap string Z) :
  total_lines (sum_counts a b) = total_lines a + total_lines b.
Proof.
  induction b as [|k n b Hk _ IH] using map_first_key_ind.
  - rewrite sum_counts_empty_r. unfold total_lines at 3.
    rewrite map_fold_empty. lia.
  - rewrite sum_counts_insert_r by done. rewrite !total_lines_insert.
    rewrite sum_counts_lookup, Hk, IH.
    destruct (a !! k); simpl; lia.
Qed.

Section AggregatorMore.

Variable env : Env.

(** The loop over a concatenation is the loop over the first list followed,
    when that returns, by the loop over the second from where it stopped. *)
Lemma aggregate_from_app (repos1 repos2 : list Repo) :
  forall (languageCounts : gmap string Z) (w : World),
    aggregate_from env (repos1 ++ repos2) languageCounts w =
      match aggregate_from env repos1 languageCounts w with
      | (Returns languageCounts', w') =>
          aggregate_from env repos2 languageCounts' w'
      | (Throws e, w') => (Throws e, w')
      end.
Proof.
  induction repos1 as [|r repos1 IH]; intros languageCounts w; [done|].
  rewrite <- app_comm_cons.
  destruct (decide (repo_name r ∈ blacklist_repos (blacklist w))) as [Hr|Hr].
  - rewrite !aggregate_skip by done. apply IH.
  - rewrite !aggregate_visit by done.
    destruct (fetchLanguageCountsForRepo env r w) as [[m|e] w']; [|done].
    apply IH.
Qed.

(** When every visited repository is up to date, the loop adds the stored
    mappings and leaves the world as it was. *)
Lemma aggregate_from_cached (repos : list Repo) (w : World) :
  Forall (fun r => repo_name r ∈ blacklist_repos (blacklist w)
                   \/ up_to_date (cache w) r) repos ->
  forall languageCounts : gmap string Z,
    aggregate_from env repos languageCounts w =
      (Returns (foldl sum_counts languageCounts
                  (stored_counts (cache w) <$> visited (blacklist w) repos)),
       w).
Proof.
  induction 1 as [|r repos Hr _ IH]; intros languageCounts; [done|].
  unfold visited. rewrite filter_cons.
  destruct (decide (repo_name r ∈ blacklist_repos (blacklist w))) as [Hex|Hex].
  - rewrite aggregate_skip by done.
    rewrite decide_False by (intros Hnot; by apply Hnot).
    apply IH.
  - rewrite aggregate_visit by done. rewrite decide_True by done.
    destruct Hr as [Hr|(entry & Hlook & Heq)]; [done|].
    rewrite (fetch_hit env r w entry Hlook Heq).
    assert (Hstored : stored_counts (cache w) r = languages entry)
      by (unfold stored_counts; by rewrite Hlook).
    rewrite fmap_cons. cbn [foldl]. rewrite Hstored. apply IH.
Qed.

(** The loop never makes more calls to the line counter than it has
    repositories to visit. *)
Lemma aggregate_from_calls (repos : list Repo) :
  forall (languageCounts : gmap string Z) (w : World),
    (loc_calls (trace (aggregate_from env repos languageCounts w).2)
     <= loc_calls (trace w) + length (visited (blacklist w) repos))%nat.
Proof.
  induction repos as [|r repos IH]; intros languageCounts w.
  - simpl. lia.
  - unfold visited. rewrite filter_cons.
    destruct (decide (repo_name r ∈ blacklist_repos (blacklist w))) as [Hex|Hex].
    + rewrite aggregate_skip by done.
      rewrite decide_False by (intros Hnot; by apply Hnot). apply IH.
    + rewrite aggregate_visit by done. rewrite decide_True by done.
      pose proof (fetch_blacklist env r w) as Hbl.
      assert (Hone : (loc_calls (trace (fetchLanguageCountsForRepo env r w).2)
                      <= S (loc_calls (trace w)))%nat).
      { destruct (hit_or_miss r w) as [(entry & Hlook & Heq)|Hstale].
        - rewrite (fetch_hit env r w entry Hlook Heq). simpl. lia.
        - destruct (fetch_miss_outcome env r w Hstale)
            as (o & w' & after & -> & Htrace & Hcalls & _). simpl.
          rewrite Htrace.
          change (GetLoc ?u :: after) with ([GetLoc u] ++ after).
          rewrite !loc_calls_app, Hcalls. unfold loc_calls at 2. simpl. lia. }
      destruct (fetchLanguageCountsForRepo env r w) as [[m|e] w'];
        simpl in *.
      * specialize (IH (sum_counts languageCounts m) w').
        unfold visited in IH. rewrite Hbl in IH. lia.
      * lia.
Qed.

End AggregatorMore.

(** X10. Aggregating a concatenation is aggregating the first list and
    then, when that returns, continuing over the second list from the total
    and the world reached; when the first part throws, the second is not
    started. *)
Theorem aggregate_concatenation (env : Env) (repos1 repos2 : list Repo)
    (w : World) :
  aggregateLanguageCounts env (repos1 ++ repos2) w =
    match aggregateLanguageCounts env repos1 w with
    | (Returns languageCounts, w') =>
        aggregate_from env repos2 languageCounts w'
    | (Throws e, w') => (Throws e, w')
    end.
Proof. apply aggregate_from_app. Qed.

(** X11. When every repository of the list is excluded or up to date in the
    cache, aggregation makes no call and no write (the world is returned as
    it was) and returns the sum of the stored mappings of the repositories
    that are not excluded. *)
Theorem aggregate_served_from_cache (env : Env) (repos : list Repo)
    (w : World) :
  Forall (fun r => repo_name r ∈ blacklist_repos (blacklist w)
                   \/ up_to_date (cache w) r) repos ->
  aggregateLanguageCounts env repos w =
    (Returns (foldl sum_counts ∅
                (stored_counts (cache w) <$> visited (blacklist w) repos)),
     w).
Proof. intros Hall. by apply aggregate_from_cached. Qed.

Lemma aggregate_served_from_cache_witness :
  Forall (fun r => repo_name r ∈ blacklist_repos (blacklist Scenario.world0)
                   \/ up_to_date (cache Scenario.world0) r)
    Cases.cached_listing
  /\ exists total,
       aggregateLanguageCounts Cases.env_cached_listing Cases.cached_listing
         Scenario.world0 = (Returns total, Scenario.world0)
       /\ total !! "JS" = Some 107
       /\ total !! "C" = Some 30.
Proof.
  assert (Hall : Forall
            (fun r => repo_name r ∈ blacklist_repos (blacklist Scenario.world0)
                      \/ up_to_date (cache Scenario.world0) r)
            Cases.cached_listing).
  { repeat apply Forall_cons_2; [| | |apply Forall_nil_2].
    - left. apply elem_of_cons. by left.
    - right. by exists Scenario.january_entry.
    - right. by exists Scenario.lib_entry. }
  split; [exact Hall|]. eexists. split.
  - apply (aggregate_served_from_cache Cases.env_cached_listing
             Cases.cached_listing Scenario.world0 Hall).
  - split; vm_compute; reflexivity.
Defined.

(** X12. When every repository is excluded or up to date, the aggregate
    does not depend on the order of the list. *)
Theorem aggregate_cached_order_independent (env : Env)
    (repos repos' : list Repo) (w : World) :
  repos ≡ₚ repos' ->
  Forall (fun r => repo_name r ∈ blacklist_repos (blacklist w)
                   \/ up_to_date (cache w) r) repos ->
  aggregateLanguageCounts env repos' w = aggregateLanguageCounts env repos w.
Proof.
  intros Hperm Hall.
  assert (Hall' : Forall (fun r => repo_name r ∈ blacklist_repos (blacklist w)
                                   \/ up_to_date (cache w) r) repos')
    by (by rewrite <- Hperm).
  unfold aggregateLanguageCounts.
  rewrite !aggregate_from_cached by done. do 2 f_equal.
  apply sum_counts_fold_permutation. unfold visited. by rewrite Hperm.
Qed.

Lemma aggregate_cached_order_independent_witness :
  Cases.cached_listing ≡ₚ reverse Cases.cached_listing
  /\ aggregateLanguageCounts Cases.env_cached_listing
       (reverse Cases.cached_listing) Scenario.world0
     = aggregateLanguageCounts Cases.env_cached_listing
         Cases.cached_listing Scenario.world0.
Proof.
  assert (Hperm : Cases.cached_listing ≡ₚ reverse Cases.cached_listing)
    by (symmetry; apply reverse_Permutation).
  split; [exact Hperm|].
  apply (aggregate_cached_order_independent Cases.env_cached_listing
           _ _ Scenario.world0 Hperm).
  repeat apply Forall_cons_2; [| | |apply Forall_nil_2].
  - left. apply elem_of_cons. by left.
  - right. by exists Scenario.january_entry.
  - right. by exists Scenario.lib_entry.
Defined.

(** X13. When the resolution of a visited repository throws, aggregation
    throws the same error from the world that resolution left: no total is
    returned, the repositories after it are not resolved, and what the
    earlier resolutions stored stays stored. *)
Theorem aggregate_aborts_on_failure (env : Env)
    (before after : list Repo) (repo : Repo) (w w1 w2 : World)
    (languageCounts : gmap string Z) (e : js_error) :
  aggregateLanguageCounts env before w = (Returns languageCounts, w1) ->
  repo_name repo ∉ blacklist_repos (blacklist w1) ->
  fetchLanguageCountsForRepo env repo w1 = (Throws e, w2) ->
  aggregateLanguageCounts env (before ++ repo :: after) w = (Throws e, w2).
Proof.
  intros Hbefore Hvisit Hthrow. unfold aggregateLanguageCounts in *.
  rewrite aggregate_from_app, Hbefore.
  rewrite aggregate_visit by done. by rewrite Hthrow.
Qed.

(** X14. The inner loop conserves the lines: the total of the running
    counts after adding a repository's mapping is the total before plus the
    total of the mapping. *)
Theorem add_entries_conserves_lines (languageCounts repoLanguages : gmap string Z) :
  total_lines (add_entries languageCounts repoLanguages)
    = total_lines languageCounts + total_lines repoLanguages.
Proof. rewrite add_entries_sum. apply sum_counts_total. Qed.

(** X15. Aggregation makes at most one call to the line counter for each
    repository of the list that is not excluded. *)
Theorem aggregate_calls_bounded (env : Env) (repos : list Repo) (w : World) :
  (loc_calls (trace (aggregateLanguageCounts env repos w).2)
   <= loc_calls (trace w) + length (visited (blacklist w) repos))%nat.
Proof. apply aggregate_from_calls. Qed.

Lemma aggregate_aborts_on_failure_witness :
  aggregateLanguageCounts Scenario.env_loc_broken [Scenario.demo_lib]
    Scenario.world0 = (Returns (languages Scenario.lib_entry), Scenario.world0)
  /\ ("app" ∉ blacklist_repos (blacklist Scenario.world0))
  /\ exists e w2,
       fetchLanguageCountsForRepo Scenario.env_loc_broken
         (Scenario.demo_app Scenario.february) Scenario.world0 = (Throws e, w2)
       /\ aggregateLanguageCounts Scenario.env_loc_broken
            ([Scenario.demo_lib]
               ++ Scenario.demo_app Scenario.february :: [Scenario.demo_secret])
            Scenario.world0 = (Throws e, w2)
       /\ cache w2 = Scenario.cached.
Proof.
  assert (Hbefore : aggregateLanguageCounts Scenario.env_loc_broken
                      [Scenario.demo_lib] Scenario.world0
                    = (Returns (languages Scenario.lib_entry), Scenario.world0))
    by (vm_compute; reflexivity).
  assert (Hvisit : "app" ∉ blacklist_repos (blacklist Scenario.world0)).
  { apply (bool_decide_unpack _). vm_compute. exact I. }
  split; [exact Hbefore|]. split; [exact Hvisit|].
  eexists _, _. split; [vm_compute; reflexivity|]. split.
  - apply (aggregate_aborts_on_failure Scenario.env_loc_broken
             [Scenario.demo_lib] [Scenario.demo_secret]
             (Scenario.demo_app Scenario.february)
             Scenario.world0 Scenario.world0 _ _ _ Hbefore Hvisit).
    vm_compute. reflexivity.
  - vm_compute. reflexivity.
Defined.

(** ** Further properties of the two routes *)

Lemma evolves_refl (w : World) : evolves w w.
Proof. by repeat split. Qed.

Lemma evolves_trans (w1 w2 w3 : World) :
  evolves w1 w2 -> evolves w2 w3 -> evolves w1 w3.
Proof.
  intros (Hb1 & Hc1 & Ht1) (Hb2 & Hc2 & Ht2). repeat split.
  - congruence.
  - auto.
  - by etrans.
Qed.

Lemma evolves_emit (e : event) (w : World) : evolves w (emit e w).
Proof. repeat split; try done. simpl. by apply prefix_app_r. Qed.

Section RouteFacts.

Variable env : Env.

Lemma fetch_evolves (repo : Repo) (w : World) :
  evolves w (fetchLanguageCountsForRepo env repo w).2.
Proof.
  destruct (hit_or_miss repo w) as [(entry & Hlook & Heq)|Hstale].
  - rewrite (fetch_hit env repo w entry Hlook Heq). apply evolves_refl.
  - destruct (fetch_miss_outcome env repo w Hstale)
      as (o & w' & after & -> & Htrace & _ & Hbl & Hcase). simpl.
    repeat split; [done| |rewrite Htrace; by apply prefix_app_r].
    intros k Hk. destruct o as [fresh|e].
    + rewrite Hcase. destruct (decide (repo_full_name repo = k)) as [->|Hne].
      * rewrite lookup_insert_eq. eauto.
      * by rewrite lookup_insert_ne.
    + destruct Hcase as (-> & _). done.
Qed.

Lemma aggregate_from_evolves (repos : list Repo) :
  forall (languageCounts : gmap string Z) (w : World),
    evolves w (aggregate_from env repos languageCounts w).2.
Proof.
  induction repos as [|r repos IH]; intros languageCounts w.
  - apply evolves_refl.
  - destruct (decide (repo_name r ∈ blacklist_repos (blacklist w))) as [Hr|Hr].
    + rewrite aggregate_skip by done. apply IH.
    + rewrite aggregate_visit by done.
      pose proof (fetch_evolves r w) as Hstep.
      destruct (fetchLanguageCountsForRepo env r w) as [[m|e] w']; [|done].
      eapply evolves_trans; [exact Hstep|apply IH].
Qed.

Lemma getRepositories_cases (username : string) (w : World) :
  getRepositories env username w =
    match github_repos env (trace w) (repos_url username) with
    | Fulfilled repos =>
        (Returns repos, emit (GetRepositories (repos_url username)) w)
    | Rejected msg =>
        (Throws (AxiosError msg),
         emit (ConsoleError "Error fetching repositories:" msg)
           (emit (GetRepositories (repos_url username)) w))
    end.
Proof.
  unfold getRepositories, axios_get_repos. run.
  by destruct (github_repos _ _ _).
Qed.

Lemma getRateLimit_cases (w : World) :
  getRateLimit env w =
    match github_rate_limit env (trace w) with
    | Fulfilled remaining => (Returns remaining, emit GetRateLimit w)
    | Rejected msg =>
        (Throws (AxiosError msg),
         emit (ConsoleError "Error fetching rate limit:" msg)
           (emit GetRateLimit w))
    end.
Proof.
  unfold getRateLimit, axios_get_rate_limit. run.
  by destruct (github_rate_limit _ _).
Qed.

Lemma countLinesOfCode_evolves (username : string) (repoName : option string)
    (w : World) :
  evolves w (countLinesOfCode env username repoName w).2.
Proof.
  unfold countLinesOfCode. unfold mbind, M_bind.
  rewrite getRepositories_cases.
  destruct (github_repos _ _ _) as [repos|msg].
  - eapply evolves_trans; [apply evolves_emit|].
    assert (Hagg : forall w0,
              evolves w0 (aggregateLanguageCounts env repos w0).2)
      by (intros w0; apply aggregate_from_evolves).
    destruct repoName as [wanted|]; [|apply Hagg].
    destruct (negb (String.eqb wanted "")); [|apply Hagg].
    destruct (find _ repos) as [repo|]; [apply fetch_evolves|].
    apply evolves_refl.
  - simpl. eapply evolves_trans; apply evolves_emit.
Qed.

(** Both routes run this computation, with [repoName] absent in the first. *)
Lemma route_outcome (username : string) (repoName : option string)
    (w : World) :
  exists (response : Response) (w' : World),
    try_catch
      (remaining ← getRateLimit env;
       if remaining =? 0
       then mret rate_limit_exceeded
       else
         totalLines ← countLinesOfCode env username repoName;
         mret {| status := 200; body := JsonCounts totalLines |})
      (fun error => mret {| status := 500; body := JsonError (message error) |})
      w = (Returns response, w')
    /\ (status response = 200 \/ status response = 429
        \/ status response = 500)
    /\ (status response = 429
        <-> github_rate_limit env (trace w) = Fulfilled 0)
    /\ evolves w w'.
Proof.
  unfold try_catch, mbind, M_bind. rewrite getRateLimit_cases.
  destruct (github_rate_limit env (trace w)) as [remaining|msg].
  - destruct (Z.eqb_spec remaining 0) as [->|Hleft].
    + eexists _, _. split; [reflexivity|]. unfold rate_limit_exceeded. simpl.
      split; [auto|]. split; [done|]. apply evolves_emit.
    + pose proof (countLinesOfCode_evolves username repoName
                    (emit GetRateLimit w)) as Hstep.
      destruct (countLinesOfCode env username repoName (emit GetRateLimit w))
        as [[totalLines|e] w']; simpl in *;
        eexists _, _; (split; [reflexivity|]); simpl;
        (split; [auto|]);
        (split; [split; [discriminate|congruence]|]);
        (eapply evolves_trans; [apply evolves_emit|exact Hstep]).
  - simpl. eexists _, _. split; [reflexivity|]. simpl.
    split; [auto|]. split; [split; discriminate|].
    eapply evolves_trans; apply evolves_emit.
Qed.

End RouteFacts.

(** X16. Neither route lets an error escape: each always answers, with
    status 200, 429 or 500, and with 429 exactly when the budget check
    answered [remaining = 0].  Whatever it answers, the request leaves the
    exclusion rules as they were, removes no key from the cache, and only
    appends to the trace. *)
Theorem routes_always_answer (env : Env) (username repoName : string)
    (w : World) :
  (exists response w',
     get_languages_username env username w = (Returns response, w')
     /\ (status response = 200 \/ status response = 429
         \/ status response = 500)
     /\ (status response = 429
         <-> github_rate_limit env (trace w) = Fulfilled 0)
     /\ evolves w w')
  /\ (exists response w',
        get_languages_username_repoName env username repoName w
          = (Returns response, w')
        /\ (status response = 200 \/ status response = 429
            \/ status response = 500)
        /\ (status response = 429
            <-> github_rate_limit env (trace w) = Fulfilled 0)
        /\ evolves w w').
Proof.
  split.
  - apply (route_outcome env username None w).
  - apply (route_outcome env username (Some repoName) w).
Qed.

(** X17. When the budget check is rejected, both routes answer 500 with the
    rejection's message, after logging it; the repositories are not listed
    and nothing is resolved. *)
Theorem budget_check_rejected_answers_500 (env : Env)
    (username repoName msg : string) (w : World) :
  github_rate_limit env (trace w) = Rejected msg ->
  get_languages_username env username w =
    (Returns {| status := 500; body := JsonError msg |},
     emit (ConsoleError "Error fetching rate limit:" msg)
       (emit GetRateLimit w))
  /\ get_languages_username_repoName env username repoName w =
       (Returns {| status := 500; body := JsonError msg |},
        emit (ConsoleError "Error fetching rate limit:" msg)
          (emit GetRateLimit w)).
Proof.
  intros Hrejected.
  unfold get_languages_username, get_languages_username_repoName.
  unfold try_catch, mbind, M_bind.
  rewrite getRateLimit_cases, Hrejected. by split.
Qed.

Lemma budget_check_rejected_answers_500_witness :
  github_rate_limit Cases.env_no_budget_answer (trace Scenario.world0)
    = Rejected "Request failed with status code 401"
  /\ get_languages_username Cases.env_no_budget_answer "demo" Scenario.world0 =
       (Returns {| status := 500;
                   body := JsonError "Request failed with status code 401" |},
        emit (ConsoleError "Error fetching rate limit:"
                "Request failed with status code 401")
          (emit GetRateLimit Scenario.world0)).
Proof.
  split; [reflexivity|].
  apply (budget_check_rejected_answers_500 Cases.env_no_budget_answer
           "demo" "app" _ Scenario.world0 eq_refl).
Defined.

(** X18. When budget is left and the listing is rejected, both routes
    answer 500 with the rejection's message, after logging it; nothing is
    resolved and the cache is untouched. *)
Theorem listing_rejected_answers_500 (env : Env)
    (username repoName msg : string) (remaining : Z) (w : World) :
  github_rate_limit env (trace w) = Fulfilled remaining ->
  remaining <> 0 ->
  github_repos env (trace w ++ [GetRateLimit]) (repos_url username)
    = Rejected msg ->
  get_languages_username env username w =
    (Returns {| status := 500; body := JsonError msg |},
     emit (ConsoleError "Error fetching repositories:" msg)
       (emit (GetRepositories (repos_url username)) (emit GetRateLimit w)))
  /\ get_languages_username_repoName env username repoName w =
       (Returns {| status := 500; body := JsonError msg |},
        emit (ConsoleError "Error fetching repositories:" msg)
          (emit (GetRepositories (repos_url username)) (emit GetRateLimit w))).
Proof.
  intros Hrate Hleft Hrejected.
  unfold get_languages_username, get_languages_username_repoName.
  unfold try_catch, mbind, M_bind, countLinesOfCode. unfold mbind, M_bind.
  rewrite getRateLimit_cases, Hrate.
  destruct (Z.eqb_spec remaining 0) as [|_]; [done|].
  rewrite getRepositories_cases. simpl. rewrite Hrejected. by split.
Qed.

Lemma listing_rejected_answers_500_witness :
  12 <> 0
  /\ get_languages_username_repoName Cases.env_no_listing "demo" "app"
       Scenario.world0 =
       (Returns {| status := 500;
                   body := JsonError "Request failed with status code 404" |},
        emit (ConsoleError "Error fetching repositories:"
                "Request failed with status code 404")
          (emit (GetRepositories (repos_url "demo"))
             (emit GetRateLimit Scenario.world0))).
Proof.
  split; [discriminate|].
  apply (listing_rejected_answers_500 Cases.env_no_listing "demo" "app" _ 12
           Scenario.world0 eq_refl ltac:(discriminate) eq_refl).
Defined.

(** X19. When budget is left, the listing answers, and every listed
    repository is excluded or up to date in the cache, the first route
    answers 200 with the sum of the stored mappings of the repositories
    that are not excluded; its only outbound effects are the budget check
    and the listing. *)
Theorem cached_request_answers_200 (env : Env) (username : string)
    (remaining : Z) (repos : list Repo) (w : World) :
  github_rate_limit env (trace w) = Fulfilled remaining ->
  remaining <> 0 ->
  github_repos env (trace w ++ [GetRateLimit]) (repos_url username)
    = Fulfilled repos ->
  Forall (fun r => repo_name r ∈ blacklist_repos (blacklist w)
                   \/ up_to_date (cache w) r) repos ->
  get_languages_username env username w =
    (Returns
       {| status := 200;
          body := JsonCounts
                    (foldl sum_counts ∅
                       (stored_counts (cache w)
                          <$> visited (blacklist w) repos)) |},
     emit (GetRepositories (repos_url username)) (emit GetRateLimit w)).
Proof.
  intros Hrate Hleft Hlist Hall.
  unfold get_languages_username.
  unfold try_catch, mbind, M_bind, countLinesOfCode. unfold mbind, M_bind.
  rewrite getRateLimit_cases, Hrate.
  destruct (Z.eqb_spec remaining 0) as [|_]; [done|].
  rewrite getRepositories_cases. simpl. rewrite Hlist.
  unfold aggregateLanguageCounts.
  by rewrite (aggregate_from_cached env repos
                (emit (GetRepositories (repos_url username))
                   (emit GetRateLimit w)) Hall ∅).
Qed.

Lemma cached_request_answers_200_witness :
  12 <> 0
  /\ Forall (fun r => repo_name r ∈ blacklist_repos (blacklist Scenario.world0)
                      \/ up_to_date (cache Scenario.world0) r)
       Cases.cached_listing
  /\ exists total,
       get_languages_username Cases.env_cached_listing "demo" Scenario.world0 =
         (Returns {| status := 200; body := JsonCounts total |},
          emit (GetRepositories (repos_url "demo"))
            (emit GetRateLimit Scenario.world0))
       /\ total !! "JS" = Some 107.
Proof.
  assert (Hall : Forall
            (fun r => repo_name r ∈ blacklist_repos (blacklist Scenario.world0)
                      \/ up_to_date (cache Scenario.world0) r)
            Cases.cached_listing).
  { repeat apply Forall_cons_2; [| | |apply Forall_nil_2].
    - left. apply elem_of_cons. by left.
    - right. by exists Scenario.january_entry.
    - right. by exists Scenario.lib_entry. }
  split; [discriminate|]. split; [exact Hall|]. eexists. split.
  - apply (cached_request_answers_200 Cases.env_cached_listing "demo" 12
             Cases.cached_listing Scenario.world0 eq_refl
             ltac:(discriminate) eq_refl Hall).
  - vm_compute. reflexivity.
Defined.

(** ** The earlier server against the present one *)

(** Adding the records one by one to the running total. *)
Lemma add_entry_records_lookup (records : list LanguageData) (k : string) :
  forall languageCounts : gmap string Z,
    foldl add_entry languageCounts
      ((fun r => (language r, linesOfCode r)) <$> records) !! k =
      if decide (k ∈ language <$> records)
      then Some (default 0 (languageCounts !! k) + reported_lines k records)
      else languageCounts !! k.
Proof.
  induction records as [|r records IH]; intros languageCounts.
  - simpl. by repeat case_decide.
  - rewrite !fmap_cons. cbn [foldl]. rewrite IH, add_entry_lookup.
    rewrite reported_lines_cons.
    destruct (decide (k = language r)) as [->|Hne].
    + rewrite (decide_True (P := language r ∈ language r :: _))
        by (apply elem_of_cons; by left).
      rewrite (decide_True (P := language r = language r)) by done. simpl.
      destruct (decide (language r ∈ language <$> records)) as [Hin|Hnot].
      * f_equal; lia.
      * rewrite reported_lines_unnamed by done. f_equal; lia.
    + rewrite (decide_False (P := language r = k)) by done.
      destruct (decide (k ∈ language <$> records)) as [Hin|Hnot].
      * rewrite decide_True by (apply elem_of_cons; by right). f_equal; lia.
      * rewrite decide_False; [done|].
        intros [?|?]%elem_of_cons; congruence.
Qed.

(** Adding the records one by one gives what adding their mapping gives. *)
Lemma add_records_is_add_entries (bl : Blacklist)
    (records : list LanguageData) (languageCounts : gmap string Z) :
  blacklist_languages bl = [] ->
  foldl add_entry languageCounts
    ((fun r => (language r, linesOfCode r)) <$> records)
    = add_entries languageCounts (foldl (count_language bl) ∅ records).
Proof.
  intros Hnone. apply map_eq. intros k.
  rewrite add_entry_records_lookup, add_entries_sum, sum_counts_lookup.
  rewrite fresh_languages_expected. unfold expected_count. rewrite Hnone.
  rewrite (decide_False (P := k ∈ [])) by apply not_elem_of_nil.
  destruct (decide (k ∈ language <$> records)); by destruct (languageCounts !! k).
Qed.

Lemma forEach_null_error (bl : Blacklist) (data : list LocItem) :
  ItemNull ∈ data ->
  forall languages,
    forEach_languageData bl data languages =
      Throws (TypeError "Cannot read properties of null (reading 'language')").
Proof.
  induction data as [|[|r|n] data IH]; intros Hin languages; simpl.
  - by apply elem_of_nil in Hin.
  - done.
  - apply elem_of_cons in Hin as [Hin|Hin]; [done|]. by apply IH.
  - apply elem_of_cons in Hin as [Hin|Hin]; [done|]. by apply IH.
Qed.

Lemma forEach_both_null (data : list LocItem) :
  ItemNull ∈ data ->
  forall acc,
    LegacyServer.forEach_both data acc =
      Throws (TypeError "Cannot read properties of null (reading 'language')").
Proof.
  induction data as [|[|r|n] data IH]; intros Hin acc; simpl.
  - by apply elem_of_nil in Hin.
  - done.
  - apply elem_of_cons in Hin as [Hin|Hin]; [done|]. by apply IH.
  - apply elem_of_cons in Hin as [Hin|Hin]; [done|]. by apply IH.
Qed.

Lemma count_unnamed_as_record (bl : Blacklist) (languages : gmap string Z)
    (lines : Z) :
  blacklist_languages bl = [] ->
  count_unnamed languages lines =
    count_language bl languages
      {| language := "undefined"; linesOfCode := lines |}.
Proof.
  intros Hnone. unfold count_language, includes. simpl. rewrite Hnone.
  by rewrite bool_decide_eq_false_2 by apply not_elem_of_nil.
Qed.

(** With no excluded language, walking an array without [null] is folding
    the callback over the elements as it counts them. *)
Lemma forEach_walkable (bl : Blacklist) (items : list LocItem) :
  blacklist_languages bl = [] ->
  ItemNull ∉ items ->
  forall languages,
    forEach_languageData bl items languages =
      Returns (foldl (count_language bl) languages (counted_records items)).
Proof.
  intros Hnone.
  induction items as [|[|r|n] items IH]; intros Hnull languages.
  - done.
  - exfalso. apply Hnull, elem_of_cons. by left.
  - apply not_elem_of_cons in Hnull as [_ Hnull]. simpl. by apply IH.
  - apply not_elem_of_cons in Hnull as [_ Hnull]. simpl.
    rewrite (count_unnamed_as_record bl) by done. by apply IH.
Qed.

Lemma forEach_both_walkable (bl : Blacklist) (items : list LocItem) :
  blacklist_languages bl = [] ->
  ItemNull ∉ items ->
  forall languages languageCounts,
    LegacyServer.forEach_both items (languages, languageCounts) =
      Returns (foldl (count_language bl) languages (counted_records items),
               foldl add_entry languageCounts
                 ((fun r => (language r, linesOfCode r))
                    <$> counted_records items)).
Proof.
  intros Hnone.
  induction items as [|[|r|n] items IH];
    intros Hnull languages languageCounts.
  - done.
  - exfalso. apply Hnull, elem_of_cons. by left.
  - apply not_elem_of_cons in Hnull as [_ Hnull]. simpl.
    rewrite <- IH by done. do 2 f_equal.
    unfold count_language, includes. rewrite Hnone.
    by rewrite bool_decide_eq_false_2 by apply not_elem_of_nil.
  - apply not_elem_of_cons in Hnull as [_ Hnull]. simpl.
    rewrite <- IH by done. do 2 f_equal.
    by rewrite (count_unnamed_as_record bl).
Qed.

Lemma null_or_walkable (items : list LocItem) :
  ItemNull ∈ items \/ ItemNull ∉ items.
Proof.
  induction items as [|item items [IH|IH]].
  - right. apply not_elem_of_nil.
  - left. apply elem_of_cons. by right.
  - destruct item.
    + left. apply elem_of_cons. by left.
    + right. by apply not_elem_of_cons.
    + right. by apply not_elem_of_cons.
Qed.

(** The earlier walk of an answer computes the mapping of the present one
    together with the total the present inner loop reaches from it. *)
Lemma walk_is_build_then_add (bl : Blacklist) (data : LocData)
    (languageCounts : gmap string Z) :
  blacklist_languages bl = [] ->
  LegacyServer.walk data languageCounts =
    match build_languages bl data with
    | Returns languages =>
        Returns (languages, add_entries languageCounts languages)
    | Throws e => Throws e
    end.
Proof.
  intros Hnone. destruct data as [|items]; [done|]. simpl.
  destruct (null_or_walkable items) as [Hnull|Hwalk].
  - by rewrite forEach_both_null, (forEach_null_error bl).
  - rewrite (forEach_both_walkable bl), (forEach_walkable bl) by done.
    by rewrite (add_records_is_add_entries bl).
Qed.

Section LegacyFacts.

Variable env : Env.

(** With no excluded language, the earlier loop is the present one. *)
Lemma count_from_is_aggregate_from (repos : list Repo) :
  forall (languageCounts : gmap string Z) (w : World),
    blacklist_languages (blacklist w) = [] ->
    LegacyServer.count_from env repos languageCounts w =
      aggregate_from env repos languageCounts w.
Proof.
  induction repos as [|r repos IH]; intros languageCounts w Hnone; [done|].
  destruct (decide (repo_name r ∈ blacklist_repos (blacklist w))) as [Hr|Hr].
  { rewrite aggregate_skip by done.
    cbn [LegacyServer.count_from]. unfold mbind at 1, M_bind at 1, get_world.
    unfold includes. rewrite bool_decide_eq_true_2 by done. by apply IH. }
  rewrite aggregate_visit by done.
  cbn [LegacyServer.count_from]. unfold mbind at 1, M_bind at 1, get_world.
  unfold includes. rewrite bool_decide_eq_false_2 by done. cbv zeta.
  destruct (hit_or_miss r w) as [(entry & Hlook & Heq)|Hstale].
  - rewrite (fetch_hit env r w entry Hlook Heq), Hlook.
    apply String.eqb_eq in Heq. rewrite Heq.
    rewrite <- add_entries_sum. by apply IH.
  - rewrite fetch_miss by done.
    assert (Hrefresh : forall refresh : M (gmap string Z),
              match cache w !! repo_full_name r with
              | Some entry =>
                  if String.eqb (latestCommit entry) (repo_pushed_at r)
                  then LegacyServer.count_from env repos
                         (foldl add_entry languageCounts
                            (Object_entries (languages entry)))
                  else refresh
              | None => refresh
              end = refresh).
    { intros refresh. unfold absent_or_stale in Hstale.
      destruct (cache w !! repo_full_name r) as [entry|]; [|done].
      by destruct (String.eqb_spec (latestCommit entry) (repo_pushed_at r)). }
    rewrite Hrefresh. clear Hrefresh.
    run. unfold axios_get_loc, loc_request.
    destruct (codetabs_loc _ _ _) as [data|msg]; simpl; [|done].
    rewrite (walk_is_build_then_add (blacklist w)) by done.
    destruct (build_languages (blacklist w) data) as [fresh|e]; simpl; [|done].
    match goal with |- context [saveCacheToFile env ?w1] =>
      destruct (saveCacheToFile_returns env w1) as (w' & -> & _ & Hbl) end.
    rewrite <- add_entries_sum. apply IH. by rewrite Hbl.
Qed.

(** The earlier [countLinesOfCode] is the present one without a repository
    name, except that it logs the error it throws on. *)
Lemma legacy_count_agrees (username : string) (w : World) :
  blacklist_languages (blacklist w) = [] ->
  LegacyServer.countLinesOfCode env username w =
    match countLinesOfCode env username None w with
    | (Returns totalLines, w') => (Returns totalLines, w')
    | (Throws e, w') =>
        (Throws e,
         emit (ConsoleError "Error counting lines of code:" (message e)) w')
    end.
Proof.
  intros Hnone. unfold LegacyServer.countLinesOfCode, countLinesOfCode.
  unfold try_catch, mbind, M_bind. rewrite getRepositories_cases.
  destruct (github_repos _ _ _) as [repos|msg]; [|done].
  unfold aggregateLanguageCounts.
  rewrite count_from_is_aggregate_from by done.
  by destruct (aggregate_from env repos ∅ _) as [[totalLines|e] w'].
Qed.

End LegacyFacts.

(** X20. With no excluded language, the earlier [countLinesOfCode(username)]
    and the present one called without a repository name return the same
    total from the same final world; when they throw, they throw the same
    error, and the earlier one has logged it once more. *)
Theorem legacy_countLinesOfCode_agrees (env : Env) (username : string)
    (w : World) :
  blacklist_languages (blacklist w) = [] ->
  LegacyServer.countLinesOfCode env username w =
    match countLinesOfCode env username None w with
    | (Returns totalLines, w') => (Returns totalLines, w')
    | (Throws e, w') =>
        (Throws e,
         emit (ConsoleError "Error counting lines of code:" (message e)) w')
    end.
Proof. apply legacy_count_agrees. Qed.

Lemma legacy_countLinesOfCode_agrees_witness :
  blacklist_languages (blacklist Cases.world_no_language) = []
  /\ exists totalLines w',
       countLinesOfCode Scenario.env_disk_full "demo" None
         Cases.world_no_language = (Returns totalLines, w')
       /\ LegacyServer.countLinesOfCode Scenario.env_disk_full "demo"
            Cases.world_no_language = (Returns totalLines, w')
       /\ totalLines !! "Go" = Some 50
       /\ totalLines !! "JS" = Some 162.
Proof.
  split; [reflexivity|].
  pose proof (legacy_countLinesOfCode_agrees Scenario.env_disk_full "demo"
                Cases.world_no_language eq_refl) as Hagree.
  eexists _, _. split; [vm_compute; reflexivity|]. split.
  - rewrite Hagree. vm_compute. reflexivity.
  - split; vm_compute; reflexivity.
Defined.

(** X21. With no excluded language, the route of the earlier server and
    the first route of the present one answer every request alike, and
    leave the same cache and the same cache file. *)
Theorem legacy_route_agrees (env : Env) (username : string) (w : World) :
  blacklist_languages (blacklist w) = [] ->
  exists response w1 w2,
    LegacyServer.get_languages_username env username w = (Returns response, w1)
    /\ get_languages_username env username w = (Returns response, w2)
    /\ cache w1 = cache w2
    /\ cache_file w1 = cache_file w2.
Proof.
  intros Hnone.
  unfold LegacyServer.get_languages_username, get_languages_username.
  unfold try_catch, mbind, M_bind. rewrite getRateLimit_cases.
  destruct (github_rate_limit env (trace w)) as [remaining|msg].
  - destruct (remaining =? 0).
    + by eexists _, _, _.
    + rewrite (legacy_count_agrees env username (emit GetRateLimit w)) by done.
      destruct (countLinesOfCode env username None (emit GetRateLimit w))
        as [[totalLines|e] w']; by eexists _, _, _.
  - by eexists _, _, _.
Qed.

Lemma legacy_route_agrees_witness :
  blacklist_languages (blacklist Cases.world_no_language) = []
  /\ exists response w1 w2,
       LegacyServer.get_languages_username Scenario.env_loc_broken "demo"
         Cases.world_no_language = (Returns response, w1)
       /\ get_languages_username Scenario.env_loc_broken "demo"
            Cases.world_no_language = (Returns response, w2)
       /\ status response = 500
       /\ cache w1 = cache w2.
Proof.
  split; [reflexivity|].
  destruct (legacy_route_agrees Scenario.env_loc_broken "demo"
              Cases.world_no_language eq_refl)
    as (response & w1 & w2 & Hold & Hnew & Hcache & _).
  exists response, w1, w2. repeat split; try assumption.
  assert (Hrun : get_languages_username Scenario.env_loc_broken "demo"
                   Cases.world_no_language
                 = (Returns {| status := 500;
                               body := JsonError
                                 "Cannot read properties of null (reading 'language')" |},
                    w2)).
  { rewrite Hnew. f_equal. vm_compute in Hnew. by injection Hnew as <- _. }
  rewrite Hnew in Hrun. by injection Hrun as ->.
Defined.

(** X22. The earlier loader of the blacklist never writes a file; it keeps
    the blacklist it has when the document is missing; it takes a parsed
    document exactly when its [repos] and [paths] are arrays, and otherwise
    keeps the blacklist it has and logs one line; a document that cannot be
    parsed is logged and the blacklist kept. *)
Theorem legacy_blacklist_loader_checks_fields (blacklist : json) (d : Disk) :
  files (Legacy.load_blacklist blacklist d).2 = files d
  /\ (files d !! BLACKLIST_FILE = None ->
      Legacy.load_blacklist blacklist d = (blacklist, d))
  /\ (forall data,
        files d !! BLACKLIST_FILE = Some (Parses data) ->
        if isArray (member data "repos") && isArray (member data "paths")
        then Legacy.load_blacklist blacklist d = (data, d)
        else (Legacy.load_blacklist blacklist d).1 = blacklist
             /\ length (console (Legacy.load_blacklist blacklist d).2)
                = S (length (console d)))
  /\ (forall err,
        files d !! BLACKLIST_FILE = Some (Unparsable err) ->
        Legacy.load_blacklist blacklist d =
          (blacklist, disk_log "Error reading blacklist file" err d)).
Proof.
  unfold Legacy.load_blacklist.
  destruct (files d !! BLACKLIST_FILE) as [[err|data]|] eqn:Hfile.
  - repeat split; try done. intros err' [= ->]. done.
  - split; [|split; [done|split; [|done]]].
    + destruct data; try done;
        by destruct (isArray _ && isArray _).
    + intros data' [= <-].
      destruct data; simpl; rewrite ?length_app; simpl; try (split; [done|lia]).
      destruct (isArray _ && isArray _); simpl; [done|].
      rewrite length_app. simpl. split; [done|lia].
  - repeat split; done.
Qed.

Lemma legacy_blacklist_loader_checks_fields_witness :
  files Scenario.disk_number !! BLACKLIST_FILE = Some (Parses (JNumber 42))
  /\ (Legacy.load_blacklist Legacy.default_blacklist Scenario.disk_number).1
     = Legacy.default_blacklist
  /\ length (console (Legacy.load_blacklist Legacy.default_blacklist
                        Scenario.disk_number).2) = 1%nat.
Proof.
  split; [reflexivity|].
  destruct (legacy_blacklist_loader_checks_fields Legacy.default_blacklist
              Scenario.disk_number) as (_ & _ & Hparsed & _).
  exact (Hparsed (JNumber 42) eq_refl).
Defined.

(** X23. Where the earlier load of the cache returns an array or object,
    the present loader returns the same value and leaves the same disk;
    where the earlier load throws on a document that cannot be parsed, the
    present loader returns the empty cache and logs the error. *)
Theorem present_loader_covers_legacy_cache_load (d : Disk) :
  (forall v d',
     LegacyServer.load_cache default_cache d = (Returns v, d') ->
     truthy v = true -> typeof v = "object" ->
     loadDataFromFile CACHE_FILE default_cache d = (v, d'))
  /\ (forall e d',
        LegacyServer.load_cache default_cache d = (Throws e, d') ->
        loadDataFromFile CACHE_FILE default_cache d =
          (default_cache,
           disk_log ("Error reading " +:+ CACHE_FILE +:+ ":") (message e) d)).
Proof.
  unfold LegacyServer.load_cache, loadDataFromFile.
  destruct (files d !! CACHE_FILE) as [[err|data]|]; split.
  - intros v d' [=].
  - intros e d' [= <- <-]. done.
  - intros v d' [= <- <-] -> ->. done.
  - intros e d' [=].
  - intros v d' [= <- <-] _ _. done.
  - intros e d' [=].
Qed.

Lemma present_loader_covers_legacy_cache_load_witness :
  LegacyServer.load_cache default_cache Cases.disk_garbled_cache
    = (Throws (Error "Unexpected end of JSON input"), Cases.disk_garbled_cache)
  /\ loadDataFromFile CACHE_FILE default_cache Cases.disk_garbled_cache =
       (JObject [],
        disk_log "Error reading cache.json:" "Unexpected end of JSON input"
          Cases.disk_garbled_cache)
  /\ loadDataFromFile CACHE_FILE default_cache Scenario.disk_no_fields
     = (JObject [], Scenario.disk_no_fields).
Proof.
  split; [reflexivity|].
  destruct (present_loader_covers_legacy_cache_load Cases.disk_garbled_cache)
    as [_ Hthrows].
  destruct (present_loader_covers_legacy_cache_load Scenario.disk_no_fields)
    as [Hreturns _].
  split.
  - exact (Hthrows _ _ eq_refl).
  - exact (Hreturns _ _ eq_refl eq_refl eq_refl).
Defined.

(** ** Frame and invariants of a whole request *)

(** A resolution leaves every key other than the repository's full name as
    it was, whether it returns or throws. *)
Lemma fetch_frame (env : Env) (repo : Repo) (w : World) (k : string) :
  k <> repo_full_name repo ->
  cache (fetchLanguageCountsForRepo env repo w).2 !! k = cache w !! k.
Proof.
  intros Hne.
  destruct (hit_or_miss repo w) as [(entry & Hlook & Heq)|Hstale].
  - by rewrite (fetch_hit env repo w entry Hlook Heq).
  - destruct (fetch_miss_outcome env repo w Hstale)
      as (o & w' & after & -> & _ & _ & _ & Hcase). simpl.
    destruct o as [fresh|e].
    + rewrite Hcase. by rewrite lookup_insert_ne.
    + by destruct Hcase as (-> & _).
Qed.

Lemma aggregate_from_frame (env : Env) (repos : list Repo) (k : string) :
  forall (languageCounts : gmap string Z) (w : World),
    k ∉ repo_full_name <$> visited (blacklist w) repos ->
    cache (aggregate_from env repos languageCounts w).2 !! k = cache w !! k.
Proof.
  induction repos as [|r repos IH]; intros languageCounts w Hk; [done|].
  unfold visited in Hk. rewrite filter_cons in Hk.
  destruct (decide (repo_name r ∈ blacklist_repos (blacklist w))) as [Hr|Hr].
  - rewrite aggregate_skip by done.
    rewrite decide_False in Hk by (intros Hnot; by apply Hnot). by apply IH.
  - rewrite aggregate_visit by done. rewrite decide_True in Hk by done.
    rewrite fmap_cons in Hk. apply not_elem_of_cons in Hk as [Hne Hk].
    pose proof (fetch_blacklist env r w) as Hbl.
    pose proof (fetch_frame env r w k Hne) as Hstep.
    destruct (fetchLanguageCountsForRepo env r w) as [[m|e] w']; simpl in *;
      [|done].
    rewrite <- Hstep. apply IH. unfold visited. by rewrite Hbl.
Qed.

Lemma fetch_in_sync (env : Env) (repo : Repo) (w : World) :
  writes_succeed env ->
  cache_file w = Some (cache w) ->
  cache_file (fetchLanguageCountsForRepo env repo w).2
    = Some (cache (fetchLanguageCountsForRepo env repo w).2).
Proof.
  intros Hwrites Hsync.
  destruct (hit_or_miss repo w) as [(entry & Hlook & Heq)|Hstale].
  - by rewrite (fetch_hit env repo w entry Hlook Heq).
  - rewrite fetch_miss by done. run. unfold axios_get_loc.
    destruct (codetabs_loc _ _ _) as [data|msg]; simpl; [|done].
    destruct (build_languages (blacklist w) data) as [fresh|e]; simpl; [|done].
    unfold saveCacheToFile. simpl. by rewrite Hwrites.
Qed.

Lemma or_zero_nonneg (v : option Z) (lines : Z) :
  (forall n, v = Some n -> 0 <= n) -> 0 <= lines -> 0 <= or_zero v + lines.
Proof.
  intros Hv Hlines. rewrite or_zero_default.
  destruct v as [n|]; simpl; [|lia]. specialize (Hv n eq_refl). lia.
Qed.

Lemma insert_nonneg (m : gmap string Z) (k : string) (n : Z) :
  counts_nonneg m -> 0 <= n -> counts_nonneg (<[k := n]> m).
Proof.
  intros Hm Hn lang x.
  destruct (decide (k = lang)) as [->|Hne].
  - rewrite lookup_insert_eq. by intros [= <-].
  - rewrite lookup_insert_ne by done. apply Hm.
Qed.

(** Walking elements with non-negative counts keeps the mapping free of
    negative counts. *)
Lemma forEach_nonneg (bl : Blacklist) (items : list LocItem) :
  (forall item, item ∈ items -> 0 <= item_lines item) ->
  forall languages fresh,
    counts_nonneg languages ->
    forEach_languageData bl items languages = Returns fresh ->
    counts_nonneg fresh.
Proof.
  induction items as [|[|r|n] items IH]; intros Hall languages fresh Hm; simpl.
  - by intros [= <-].
  - done.
  - apply IH.
    + intros item Hitem. apply Hall, elem_of_cons. by right.
    + unfold count_language. cbv zeta. destruct (negb _); [|done].
      apply insert_nonneg; [done|]. apply or_zero_nonneg; [apply Hm|].
      apply (Hall (ItemRecord r)), elem_of_cons. by left.
  - apply IH.
    + intros item Hitem. apply Hall, elem_of_cons. by right.
    + apply insert_nonneg; [done|]. apply or_zero_nonneg; [apply Hm|].
      apply (Hall (ItemNoLanguage n)), elem_of_cons. by left.
Qed.

Lemma sum_counts_nonneg (a b : gmap string Z) :
  counts_nonneg a -> counts_nonneg b -> counts_nonneg (sum_counts a b).
Proof.
  intros Ha Hb lang n. rewrite sum_counts_lookup.
  destruct (a !! lang) as [x|] eqn:Hx, (b !! lang) as [y|] eqn:Hy;
    intros [= <-].
  - specialize (Ha lang x Hx). specialize (Hb lang y Hy). lia.
  - by apply (Ha lang).
  - by apply (Hb lang).
Qed.

(** A resolution returns no negative count and stores none. *)
Lemma fetch_nonneg (env : Env) (repo : Repo) (w : World) :
  reports_nonneg env ->
  cache_nonneg (cache w) ->
  cache_nonneg (cache (fetchLanguageCountsForRepo env repo w).2)
  /\ forall counts,
       (fetchLanguageCountsForRepo env repo w).1 = Returns counts ->
       counts_nonneg counts.
Proof.
  intros Hreports Hcache.
  destruct (hit_or_miss repo w) as [(entry & Hlook & Heq)|Hstale].
  - rewrite (fetch_hit env repo w entry Hlook Heq). simpl.
    split; [done|]. intros counts [= <-]. by apply (Hcache _ _ Hlook).
  - destruct (fetch_miss_outcome env repo w Hstale)
      as (o & w' & after & Hrun & _ & _ & _ & Hcase).
    assert (Hfresh : forall counts, o = Returns counts -> counts_nonneg counts).
    { intros counts ->. rewrite fetch_miss in Hrun by done.
      revert Hrun. run. unfold axios_get_loc.
      destruct (codetabs_loc env (trace w) (loc_request w repo))
        as [[|data]|msg] eqn:Hans; simpl; try done.
      destruct (forEach_languageData (blacklist w) data ∅) as [fresh|e]
        eqn:Hwalk; simpl; [|done].
      match goal with |- context [saveCacheToFile env ?w1] =>
        destruct (saveCacheToFile_returns env w1) as (w2 & -> & _) end.
      intros [= <- _].
      apply (forEach_nonneg (blacklist w) data
               (fun item => Hreports _ _ _ item Hans) ∅ fresh); [|done].
      intros lang n Hn. by rewrite lookup_empty in Hn. }
    rewrite Hrun. simpl. split; [|done].
    destruct o as [fresh|e].
    + rewrite Hcase. intros k entry.
      destruct (decide (repo_full_name repo = k)) as [->|Hne].
      * rewrite lookup_insert_eq. intros [= <-]. simpl. by apply Hfresh.
      * rewrite lookup_insert_ne by done. apply Hcache.
    + by destruct Hcase as (-> & _).
Qed.

Lemma aggregate_from_nonneg (env : Env) (repos : list Repo) :
  reports_nonneg env ->
  forall (languageCounts : gmap string Z) (w : World),
    cache_nonneg (cache w) ->
    counts_nonneg languageCounts ->
    cache_nonneg (cache (aggregate_from env repos languageCounts w).2)
    /\ forall total,
         (aggregate_from env repos languageCounts w).1 = Returns total ->
         counts_nonneg total.
Proof.
  intros Hreports.
  induction repos as [|r repos IH]; intros languageCounts w Hcache Hcounts.
  - simpl. split; [done|]. by intros total [= <-].
  - destruct (decide (repo_name r ∈ blacklist_repos (blacklist w))) as [Hr|Hr].
    + rewrite aggregate_skip by done. by apply IH.
    + rewrite aggregate_visit by done.
      destruct (fetch_nonneg env r w Hreports Hcache) as [Hcache' Hm].
      destruct (fetchLanguageCountsForRepo env r w) as [[m|e] w']; simpl in *.
      * apply IH; [done|]. apply sum_counts_nonneg; [done|]. by apply Hm.
      * split; [done|]. intros total [=].
Qed.

Section RequestInvariants.

Variable env : Env.
Variable P : World -> Prop.
Hypothesis P_emit : forall e w, P w -> P (emit e w).
Hypothesis P_fetch :
  forall repo w, P w -> P (fetchLanguageCountsForRepo env repo w).2.

Lemma aggregate_from_preserves (repos : list Repo) :
  forall (languageCounts : gmap string Z) (w : World),
    P w -> P (aggregate_from env repos languageCounts w).2.
Proof.
  induction repos as [|r repos IH]; intros languageCounts w Hw; [done|].
  destruct (decide (repo_name r ∈ blacklist_repos (blacklist w))) as [Hr|Hr].
  - rewrite aggregate_skip by done. by apply IH.
  - rewrite aggregate_visit by done.
    pose proof (P_fetch r w Hw) as Hstep.
    destruct (fetchLanguageCountsForRepo env r w) as [[m|e] w']; [|done].
    by apply IH.
Qed.

Lemma countLinesOfCode_preserves (username : string)
    (repoName : option string) (w : World) :
  P w -> P (countLinesOfCode env username repoName w).2.
Proof.
  intros Hw. unfold countLinesOfCode. unfold mbind, M_bind.
  rewrite getRepositories_cases.
  destruct (github_repos _ _ _) as [repos|msg]; simpl; [|by auto].
  assert (Hagg : P (aggregateLanguageCounts env repos
                      (emit (GetRepositories (repos_url username)) w)).2)
    by (apply aggregate_from_preserves; auto).
  destruct repoName as [wanted|]; [|done].
  destruct (negb (String.eqb wanted "")); [|done].
  destruct (find _ repos) as [repo|]; simpl; auto.
Qed.

Lemma route_preserves (username : string) (repoName : option string)
    (w : World) :
  P w ->
  P (try_catch
       (remaining ← getRateLimit env;
        if remaining =? 0
        then mret rate_limit_exceeded
        else
          totalLines ← countLinesOfCode env username repoName;
          mret {| status := 200; body := JsonCounts totalLines |})
       (fun error => mret {| status := 500; body := JsonError (message error) |})
       w).2.
Proof.
  intros Hw. unfold try_catch, mbind, M_bind. rewrite getRateLimit_cases.
  destruct (github_rate_limit env (trace w)) as [remaining|msg]; simpl;
    [|by auto].
  destruct (remaining =? 0); simpl; [by auto|].
  pose proof (countLinesOfCode_preserves username repoName
                (emit GetRateLimit w) (P_emit _ _ Hw)) as Hstep.
  by destruct (countLinesOfCode env username repoName (emit GetRateLimit w))
    as [[totalLines|e] w'].
Qed.

End RequestInvariants.

(** X24. Aggregation leaves untouched every cache key that is not the full
    name of a repository it visits, whether it returns or throws. *)
Theorem aggregate_frame (env : Env) (repos : list Repo) (w : World)
    (k : string) :
  k ∉ repo_full_name <$> visited (blacklist w) repos ->
  cache (aggregateLanguageCounts env repos w).2 !! k = cache w !! k.
Proof. apply aggregate_from_frame. Qed.

Lemma aggregate_frame_witness :
  ("demo/secret" ∉ repo_full_name
                     <$> visited (blacklist Scenario.world0) Scenario.listing)
  /\ cache (aggregateLanguageCounts Scenario.env_ok Scenario.listing
              Scenario.world0).2 !! "demo/secret" = None.
Proof.
  assert (Hnot : "demo/secret" ∉ repo_full_name
                   <$> visited (blacklist Scenario.world0) Scenario.listing).
  { apply (bool_decide_unpack _). vm_compute. exact I. }
  split; [exact Hnot|].
  rewrite (aggregate_frame Scenario.env_ok Scenario.listing Scenario.world0
             "demo/secret" Hnot).
  reflexivity.
Defined.

(** X25. When every write of the cache file succeeds and the file holds the
    in-memory cache before a request, it holds the in-memory cache after
    the request, on either route and whatever the request answers. *)
Theorem routes_keep_cache_file_in_sync (env : Env)
    (username repoName : string) (w : World) :
  writes_succeed env ->
  cache_file w = Some (cache w) ->
  cache_file (get_languages_username env username w).2
    = Some (cache (get_languages_username env username w).2)
  /\ cache_file (get_languages_username_repoName env username repoName w).2
     = Some (cache (get_languages_username_repoName env username repoName w).2).
Proof.
  intros Hwrites Hsync. split.
  - apply (route_preserves env (fun w => cache_file w = Some (cache w))
             ltac:(done) ltac:(intros; by apply fetch_in_sync)
             username None w Hsync).
  - apply (route_preserves env (fun w => cache_file w = Some (cache w))
             ltac:(done) ltac:(intros; by apply fetch_in_sync)
             username (Some repoName) w Hsync).
Qed.

Lemma routes_keep_cache_file_in_sync_witness :
  writes_succeed Scenario.env_ok
  /\ cache_file Scenario.world0 = Some (cache Scenario.world0)
  /\ cache_file (get_languages_username Scenario.env_ok "demo"
                   Scenario.world0).2
     = Some (cache (get_languages_username Scenario.env_ok "demo"
                      Scenario.world0).2)
  /\ is_Some (cache (get_languages_username Scenario.env_ok "demo"
                       Scenario.world0).2 !! "demo/app").
Proof.
  assert (Hwrites : writes_succeed Scenario.env_ok) by (intros t path c; reflexivity).
  split; [exact Hwrites|]. split; [reflexivity|].
  destruct (routes_keep_cache_file_in_sync Scenario.env_ok "demo" "app"
              Scenario.world0 Hwrites eq_refl) as [Hall _].
  split; [exact Hall|]. eexists. vm_compute. reflexivity.
Defined.

(** X26. When the line counter never reports a negative count and the cache
    holds none, no route answers a negative count, and the cache still
    holds none after the request. *)
Theorem routes_answer_nonnegative_counts (env : Env)
    (username repoName : string) (w : World) :
  reports_nonneg env ->
  cache_nonneg (cache w) ->
  (cache_nonneg (cache (get_languages_username env username w).2)
   /\ forall response w' totalLines,
        get_languages_username env username w = (Returns response, w') ->
        body response = JsonCounts totalLines ->
        counts_nonneg totalLines)
  /\ (cache_nonneg
        (cache (get_languages_username_repoName env username repoName w).2)
      /\ forall response w' totalLines,
           get_languages_username_repoName env username repoName w
             = (Returns response, w') ->
           body response = JsonCounts totalLines ->
           counts_nonneg totalLines).
Proof.
  intros Hreports Hcache.
  assert (Hkeep : forall rn,
            cache_nonneg
              (cache (try_catch
                 (remaining ← getRateLimit env;
                  if remaining =? 0
                  then mret rate_limit_exceeded
                  else
                    totalLines ← countLinesOfCode env username rn;
                    mret {| status := 200; body := JsonCounts totalLines |})
                 (fun error =>
                    mret {| status := 500; body := JsonError (message error) |})
                 w).2)).
  { intros rn.
    apply (route_preserves env (fun w => cache_nonneg (cache w))
             ltac:(done)
             ltac:(intros repo w0 H0;
                   exact (proj1 (fetch_nonneg env repo w0 Hreports H0)))
             username rn w Hcache). }
  assert (Hcount : forall rn w0 totalLines w',
            cache_nonneg (cache w0) ->
            countLinesOfCode env username rn w0 = (Returns totalLines, w') ->
            counts_nonneg totalLines).
  { intros rn w0 totalLines w' H0. unfold countLinesOfCode.
    unfold mbind, M_bind. rewrite getRepositories_cases.
    destruct (github_repos _ _ _) as [repos|msg]; [|done].
    set (w1 := emit (GetRepositories (repos_url username)) w0).
    assert (Hagg : aggregateLanguageCounts env repos w1 = (Returns totalLines, w')
                   -> counts_nonneg totalLines).
    { intros Hrun.
      destruct (aggregate_from_nonneg env repos Hreports ∅ w1 H0
                  ltac:(intros ? ? Hl; by rewrite lookup_empty in Hl))
        as [_ Htotal].
      apply Htotal. unfold aggregateLanguageCounts in Hrun. by rewrite Hrun. }
    destruct rn as [wanted|]; [|done].
    destruct (negb (String.eqb wanted "")); [|done].
    destruct (find _ repos) as [repo|]; [|done].
    intros Hrun. destruct (fetch_nonneg env repo w1 Hreports H0) as [_ Hm].
    apply Hm. by rewrite Hrun. }
  assert (Hbody : forall rn response w' totalLines,
            try_catch
              (remaining ← getRateLimit env;
               if remaining =? 0
               then mret rate_limit_exceeded
               else
                 totalLines ← countLinesOfCode env username rn;
                 mret {| status := 200; body := JsonCounts totalLines |})
              (fun error =>
                 mret {| status := 500; body := JsonError (message error) |})
              w = (Returns response, w') ->
            body response = JsonCounts totalLines ->
            counts_nonneg totalLines).
  { intros rn response w' totalLines.
    unfold try_catch, mbind, M_bind. rewrite getRateLimit_cases.
    destruct (github_rate_limit env (trace w)) as [remaining|msg]; simpl.
    - destruct (remaining =? 0); simpl.
      + intros [= <- _]. done.
      + destruct (countLinesOfCode env username rn (emit GetRateLimit w))
          as [[total|e] w1] eqn:Hrun; simpl.
        * intros [= <- _] [= <-].
          by apply (Hcount rn (emit GetRateLimit w) _ _ Hcache Hrun).
        * intros [= <- _]. done.
    - intros [= <- _]. done. }
  split; split.
  - apply (Hkeep None).
  - apply (Hbody None).
  - apply (Hkeep (Some repoName)).
  - apply (Hbody (Some repoName)).
Qed.

Lemma routes_answer_nonnegative_counts_witness :
  reports_nonneg Scenario.env_ok
  /\ cache_nonneg (cache Scenario.world0)
  /\ exists totalLines w',
       get_languages_username Scenario.env_ok "demo" Scenario.world0
         = (Returns {| status := 200; body := JsonCounts totalLines |}, w')
       /\ totalLines !! "JS" = Some 162
       /\ counts_nonneg totalLines.
Proof.
  assert (Hreports : reports_nonneg Scenario.env_ok).
  { intros t url data item [= <-] Hitem.
    repeat (apply elem_of_cons in Hitem as [->|Hitem]; [simpl; lia|]).
    by apply elem_of_nil in Hitem. }
  assert (Hcache : cache_nonneg (cache Scenario.world0)).
  { intros k entry Hk. simpl in Hk. unfold Scenario.cached in Hk.
    apply lookup_insert_Some in Hk as [[_ <-]|[_ Hk]].
    - intros lang n Hn. simpl in Hn.
      apply lookup_singleton_Some in Hn as [_ <-]. lia.
    - apply lookup_singleton_Some in Hk as [_ <-].
      intros lang n Hn. simpl in Hn.
      apply lookup_insert_Some in Hn as [[_ <-]|[_ Hn]]; [lia|].
      apply lookup_singleton_Some in Hn as [_ <-]. lia. }
  split; [exact Hreports|]. split; [exact Hcache|].
  destruct (routes_answer_nonnegative_counts Scenario.env_ok "demo" "app"
              Scenario.world0 Hreports Hcache) as [[_ Hall] _].
  eexists _, _. split; [vm_compute; reflexivity|].
  split; [vm_compute; reflexivity|].
  apply (Hall _ _ _ ltac:(vm_compute; reflexivity) eq_refl).
Defined.
